(** * The execute-python route of the data-to-infographic router

    A shallow embedding of the [POST /execute-python] handler of
    [createDataToInfographicRouter] (src/unnamed/part_008, lines 784-892):
    request validation, allocation of the per-request job directory,
    composition of the Python script, the awaited interpreter run, the
    collection of the chart files and the delayed removal of the job
    directory.

    The Node runtime is the environment of the handler.  What the handler
    observes of it is made explicit: the clock read by [Date.now()], the
    digits drawn by [Math.random()], the files below the temp directory,
    the pending [setTimeout] callbacks, the errors the [fs] calls may
    throw and the behaviour of the child process, with the limit that
    [child_process.exec] puts on its output. *)

From stdpp Require Import gmap strings list fin_maps pretty sorting.
From Stdlib Require Import Ascii String NArith ZArith Lia.
From Stdlib Require Floats.

Open Scope string_scope.

(** ** JavaScript string operations used by the handler *)

Module Js.

(** [s.startsWith(p)] *)
Definition startsWith (s p : string) : bool := String.prefix p s.

(** [s.endsWith(p)] *)
Fixpoint endsWith (s p : string) : bool :=
  if String.eqb s p then true
  else match s with
       | EmptyString => false
       | String _ s' => endsWith s' p
       end.

(** [s.includes(p)] *)
Fixpoint includes (s p : string) : bool :=
  if String.prefix p s then true
  else match s with
       | EmptyString => false
       | String _ s' => includes s' p
       end.

(** [s.substr(from, len)]: out-of-range positions truncate. *)
Definition substr (from len : nat) (s : string) : string :=
  String.substring from len s.

(** Truthiness of a string-valued request field: [undefined], [null] and
    the empty string are falsy. *)
Definition truthy (v : option string) : bool :=
  match v with
  | None => false
  | Some s => negb (String.eqb s EmptyString)
  end.

(** A field spliced into a template literal. *)
Definition text (v : option string) : string :=
  match v with
  | Some s => s
  | None => "undefined"
  end.

(** Truthiness of a string. *)
Definition nonempty (s : string) : bool := negb (String.eqb s EmptyString).

(** The character [c] occurs in [s]. *)
Fixpoint occurs (c : ascii) (s : string) : Prop :=
  match s with
  | EmptyString => False
  | String c' s' => c = c' \/ occurs c s'
  end.

(** [Buffer.byteLength(s, 'utf8')] of a text whose code units are below
    256, one character of [string] for each: one byte for a code unit
    below 128, two for the others. *)
Fixpoint byteLength (s : string) : N :=
  match s with
  | EmptyString => 0%N
  | String c s' =>
      ((if Nat.ltb (nat_of_ascii c) 128 then 1 else 2) + byteLength s')%N
  end.

(** The double quote, for the texts that contain one. *)
Definition dq : string := String (ascii_of_nat 34) EmptyString.

(** The line feed. *)
Definition nl : string := String (ascii_of_nat 10) EmptyString.

End Js.

(** ** Job identifiers

    [const jobId = `job_${Date.now()}_${Math.random().toString(36).substr(2, 9)}`]

    [Date.now()] is the millisecond clock, a natural number printed in
    decimal.  [Math.random()] is a double in [0, 1); the handler only looks
    at its rendering in base 36, so a draw is represented by the fraction
    digits of that rendering. *)

Module JobId.

Definition alphabet36 : string := "0123456789abcdefghijklmnopqrstuvwxyz".

(** The character of one base-36 digit. *)
Definition digit36 (d : nat) : ascii :=
  match String.get (d mod 36) alphabet36 with
  | Some c => c
  | None => "0"%char
  end.

Fixpoint digits36 (ds : list nat) : string :=
  match ds with
  | [] => EmptyString
  | d :: ds' => String (digit36 d) (digits36 ds')
  end.

(** [x.toString(36)] for a double [0 <= x < 1] with fraction digits [ds]:
    ["0"] for zero, ["0." ++ digits] otherwise. *)
Definition toString36 (ds : list nat) : string :=
  match ds with
  | [] => "0"
  | _ => "0." +:+ digits36 ds
  end.

(** The random suffix of the identifier. *)
Definition suffix (ds : list nat) : string :=
  Js.substr 2 9 (toString36 ds).

Definition jobId (clock : N) (ds : list nat) : string :=
  "job_" +:+ pretty clock +:+ "_" +:+ suffix ds.

End JobId.


(** ** Base64, as [Buffer.toString('base64')] *)

Module Base64.

Definition alphabet : string :=
  "ABCDEFGHIJKLMNOPQRSTUVWXYZabcdefghijklmnopqrstuvwxyz0123456789+/".

Definition sextet (n : N) : ascii :=
  match String.get (N.to_nat (n mod 64)) alphabet with
  | Some c => c
  | None => "A"%char
  end.

Definition pad : ascii := "="%char.

(** Three bytes give four characters; a last group of one or two bytes
    is padded with [=]. *)
Fixpoint encode_bytes (bs : list N) : string :=
  match bs with
  | [] => EmptyString
  | [a] =>
      String (sextet (N.shiftr a 2))
        (String (sextet (N.shiftl (N.land a 3) 4))
           (String pad (String pad EmptyString)))
  | [a; b] =>
      String (sextet (N.shiftr a 2))
        (String (sextet (N.lor (N.shiftl (N.land a 3) 4) (N.shiftr b 4)))
           (String (sextet (N.shiftl (N.land b 15) 2))
              (String pad EmptyString)))
  | a :: b :: c :: rest =>
      String (sextet (N.shiftr a 2))
        (String (sextet (N.lor (N.shiftl (N.land a 3) 4) (N.shiftr b 4)))
           (String (sextet (N.lor (N.shiftl (N.land b 15) 2) (N.shiftr c 6)))
              (String (sextet (N.land c 63)) (encode_bytes rest))))
  end.

Definition encode (data : string) : string :=
  encode_bytes (map N_of_ascii (list_ascii_of_string data)).

End Base64.

(** ** The world the handler runs in *)

(** An entry of a job directory: a regular file with its bytes, or a
    sub-directory. *)
Inductive node : Type :=
| File (data : string)
| Folder.

(** A job directory, as [fs.readdirSync] lists it: the order of the list is
    the order of the listing, which the platform decides. *)
Definition directory : Type := list (string * node).

(** - [clock]: the millisecond clock, [Date.now()];
    - [temp]: the temp directory, [None] while it does not exist, else its
      job directories by name;
    - [timers]: the pending [setTimeout] callbacks, each with its due time
      and the job directory its closure removes. *)
Record world : Type := World {
  clock : N;
  temp : option (gmap string directory);
  timers : list (N * string)
}.

(** The [fs] calls of the handler, as points where the runtime may throw. *)
Inductive fs_op : Type :=
| MkdirTemp
| MkdirJob
| WriteCsv
| WriteScript
| Readdir
| ReadFile (name : string).

(** The run of [python3 script.py] in the job directory, as
    [child_process.exec] sees it.  [stdout] and [stderr] are the texts
    that arrive on the two streams.  The child exits by itself with an
    exit code, or it never does.  [elapsed] is the time in milliseconds
    after which the promise of [execAsync] settles, when it settles, and
    [files] the job directory at that time: for a child that exits within
    the limit of [exec] on its output this is the time of the exit and the
    directory as the child leaves it; for a child that [exec] kills for
    its output it is the time of the kill. *)
Inductive child_outcome : Type :=
| Exited (elapsed : N) (code : Z) (stdout stderr : string) (files : directory)
| Hangs (elapsed : N) (stdout stderr : string) (files : directory).

(** What one request observes of its environment. *)
Record env : Type := Env {
  random : list nat;
  fault : fs_op -> option string;
  child : child_outcome
}.

(** [req.body] of the route: the two fields the handler destructures,
    each a text, [None] when the field is absent. *)
Record request : Type := Request {
  csvData : option string;
  pythonCode : option string
}.

(** The three shapes of [res.json] in the handler. *)
Inductive response : Type :=
| Json400 (error : string)
| Json500 (error details suggestion : string)
| Json200 (chartImages : list string) (chartsGenerated : nat)
          (message stdout : string).

Definition status (r : response) : nat :=
  match r with
  | Json400 _ => 400
  | Json500 _ _ _ => 500
  | Json200 _ _ _ _ => 200
  end.

(** A request has answered, or it is still suspended at its [await]. *)
Inductive outcome : Type :=
| Responded (r : response) (w : world)
| Awaiting (w : world).

(** ** Exceptions and state *)

Inductive result (A : Type) : Type :=
| Ok (a : A)
| Throw (message : string).
Arguments Ok {A} a.
Arguments Throw {A} message.

(** A computation on the world that returns or throws; the effects made
    before a throw stay. *)
Definition M (A : Type) : Type := world -> result A * world.

Global Instance M_ret : MRet M := fun A a w => (Ok a, w).
Global Instance M_bind : MBind M := fun A B k m w =>
  match m w with
  | (Ok a, w') => k a w'
  | (Throw e, w') => (Throw e, w')
  end.

Definition throw {A} (message : string) : M A := fun w => (Throw message, w).

Fixpoint mapM {A B} (f : A -> M B) (l : list A) : M (list B) :=
  match l with
  | [] => mret []
  | a :: l' => b ← f a; bs ← mapM f l'; mret (b :: bs)
  end.

(** ** Directory entries *)

Fixpoint dir_lookup (name : string) (d : directory) : option node :=
  match d with
  | [] => None
  | (n, x) :: d' => if String.eqb n name then Some x else dir_lookup name d'
  end.

(** Writing a file replaces the entry of that name, or adds one. *)
Fixpoint dir_write (name data : string) (d : directory) : directory :=
  match d with
  | [] => [(name, File data)]
  | (n, x) :: d' =>
      if String.eqb n name then (n, File data) :: d'
      else (n, x) :: dir_write name data d'
  end.

(** The name the script gives its [k]-th chart: [f'chart_{fig_count}.png']. *)
Definition chart_name (k : nat) : string :=
  "chart_" +:+ pretty k +:+ ".png".

(** The job directory of that name, when it exists. *)
Definition job_dir (jobId : string) (w : world) : option directory :=
  match temp w with
  | Some jobs => jobs !! jobId
  | None => None
  end.

(** ** Timers *)

(** The callback of the handler's [setTimeout]:
    [fs.rmSync(jobDir, { recursive: true, force: true })], any error
    swallowed. *)
Definition cleanup (jobId : string) (w : world) : world :=
  World (clock w) (delete jobId <$> temp w) (timers w).

Definition due (t : N) (tm : N * string) : bool := (fst tm <=? t)%N.

(** A pending callback runs. *)
Definition fire (w : world) (tm : N * string) : world := cleanup (snd tm) w.

(** [dt] milliseconds pass: the callbacks that fall due run. *)
Definition advance (dt : N) (w : world) : world :=
  let t := (clock w + dt)%N in
  let fired := List.filter (due t) (timers w) in
  let rest := List.filter (fun tm => negb (due t tm)) (timers w) in
  foldl fire (World t (temp w) rest) fired.

(** ** The handler *)

Module Handler.
Section handler.

(** [path.join(__dirname, '../../temp')], fixed by where the server is
    installed. *)
Variable tempDir : string.

Definition path_join (a b : string) : string := a +:+ "/" +:+ b.

(** *** The [fs] calls *)

(** No [fs] call of the request throws. *)
Definition healthy (e : env) : Prop := forall op, fault e op = None.

Definition guarded {A} (e : env) (op : fs_op) (act : M A) : M A :=
  fun w => match fault e op with
           | Some message => (Throw message, w)
           | None => act w
           end.

Definition existsSync_temp : M bool :=
  fun w => (Ok (match temp w with Some _ => true | None => false end), w).

Definition mkdir_job (jobId : string) (jobs : gmap string directory)
  : gmap string directory :=
  match jobs !! jobId with
  | Some _ => jobs
  | None => <[jobId := []]> jobs
  end.

(** [fs.mkdirSync(tempDir, { recursive: true })] *)
Definition mkdirSync_temp (e : env) : M unit :=
  guarded e MkdirTemp
    (fun w => (Ok (), World (clock w) (Some (default ∅ (temp w))) (timers w))).

(** [fs.mkdirSync(jobDir, { recursive: true })]: missing parents are
    created, an existing directory is left as it is. *)
Definition mkdirSync_job (e : env) (jobId : string) : M unit :=
  guarded e MkdirJob
    (fun w => (Ok (), World (clock w)
                        (Some (mkdir_job jobId (default ∅ (temp w))))
                        (timers w))).

(** [fs.writeFileSync(path.join(jobDir, name), data)] *)
Definition writeFileSync (e : env) (op : fs_op) (jobId name data : string)
  : M unit :=
  guarded e op
    (fun w =>
       match job_dir jobId w with
       | None => (Throw ("ENOENT: no such file or directory, open " +:+ name), w)
       | Some d =>
           match dir_lookup name d with
           | Some Folder =>
               (Throw ("EISDIR: illegal operation on a directory, open " +:+ name), w)
           | _ =>
               (Ok (), World (clock w)
                         (<[jobId := dir_write name data d]> <$> temp w)
                         (timers w))
           end
       end).

(** [fs.readdirSync(jobDir)] *)
Definition readdirSync (e : env) (jobId : string) : M (list string) :=
  guarded e Readdir
    (fun w =>
       match job_dir jobId w with
       | None => (Throw "ENOENT: no such file or directory, scandir", w)
       | Some d => (Ok (map fst d), w)
       end).

(** [fs.readFileSync(path.join(jobDir, file))] *)
Definition readFileSync (e : env) (jobId file : string) : M string :=
  guarded e (ReadFile file)
    (fun w =>
       match job_dir jobId w with
       | None => (Throw ("ENOENT: no such file or directory, open " +:+ file), w)
       | Some d =>
           match dir_lookup file d with
           | None =>
               (Throw ("ENOENT: no such file or directory, open " +:+ file), w)
           | Some Folder =>
               (Throw "EISDIR: illegal operation on a directory, read", w)
           | Some (File data) => (Ok data, w)
           end
       end).

(** [setTimeout(() => { ... fs.rmSync(jobDir, ...) ... }, delay)] *)
Definition setTimeout (jobId : string) (delay : N) : M unit :=
  fun w => (Ok (), World (clock w) (temp w)
                     (timers w ++ [((clock w + delay)%N, jobId)])).

(** *** The composed script *)

Definition lines (ls : list string) : string :=
  foldr (fun l rest => l +:+ Js.nl +:+ rest) EmptyString ls.

Definition prologue (csvPath : string) : string :=
  lines [
    EmptyString;
    "import pandas as pd";
    "import matplotlib.pyplot as plt";
    "import seaborn as sns";
    "import numpy as np";
    "import os";
    "import warnings";
    "warnings.filterwarnings('ignore')";
    EmptyString;
    "# Set matplotlib to use Agg backend (non-interactive)";
    "plt.switch_backend('Agg')";
    EmptyString;
    "# Configure Seaborn for better visualizations";
    "sns.set_style(" +:+ Js.dq +:+ "whitegrid" +:+ Js.dq +:+ ")";
    "sns.set_palette(" +:+ Js.dq +:+ "husl" +:+ Js.dq +:+ ")";
    "plt.rcParams['figure.figsize'] = (10, 6)";
    "plt.rcParams['font.size'] = 12";
    EmptyString;
    "# Load the data";
    "data = pd.read_csv('" +:+ csvPath +:+ "')";
    EmptyString
  ].

Definition epilogue : string :=
  lines [
    EmptyString;
    "# Save all current figures";
    "fig_count = 0";
    "for i in plt.get_fignums():";
    "    fig = plt.figure(i)";
    "    fig.savefig(f'chart_{fig_count}.png', dpi=150, bbox_inches='tight', facecolor='white', edgecolor='none')";
    "    fig_count += 1";
    "    plt.close(fig)";
    EmptyString;
    "print(f" +:+ Js.dq +:+ "Generated {fig_count} charts" +:+ Js.dq +:+ ")"
  ].

Definition modifiedPythonCode (csvPath pythonCode : string) : string :=
  prologue csvPath +:+ pythonCode +:+ Js.nl +:+ epilogue.

(** *** Allocation of the workspace: everything before the [await] *)

Definition allocate (e : env) (csv code : string) : M string :=
  fun w =>
    let jobId := JobId.jobId (clock w) (random e) in
    let jobDir := path_join tempDir jobId in
    let csvPath := path_join jobDir "data.csv" in
    (present ← existsSync_temp;
     (if present : bool then mret () else mkdirSync_temp e);;
     mkdirSync_job e jobId;;
     writeFileSync e WriteCsv jobId "data.csv" csv;;
     writeFileSync e WriteScript jobId "script.py"
       (modifiedPythonCode csvPath code);;
     mret jobId) w.

(** The two files a fresh job directory holds when the script starts. *)
Definition workspace_files (jobId csv code : string) : directory :=
  [("data.csv", File csv);
   ("script.py",
    File (modifiedPythonCode
            (path_join (path_join tempDir jobId) "data.csv") code))].

(** *** The interpreter run *)

Definition command (jobId : string) : string :=
  "cd " +:+ Js.dq +:+ path_join tempDir jobId +:+ Js.dq
  +:+ " && python3 script.py".

(** The default [maxBuffer] of [child_process.exec]: the largest number
    of bytes allowed on each of the two streams. *)
Definition maxBuffer : N := 1024 * 1024.

Definition exceeds (text : string) : bool :=
  (maxBuffer <? Js.byteLength text)%N.

(** [execAsync(cmd)], the promisified [child_process.exec] called with
    no options.  No time limit is set; the only limit is [maxBuffer].
    When the data on a stream passes it, [exec] destroys both streams,
    kills the child and rejects with the name of that stream, whatever the
    exit code; as nothing arrives after that, at most one of the two texts
    is above the limit, and the order of the two tests below is of no
    account.  Else the promise settles when the child exits, [exit] being
    its exit code: it resolves with the two texts on exit code zero and
    rejects with an [Error] carrying the command and the standard error
    otherwise.  [None]: the promise never settles. *)
Definition execAsync (cmd : string) (exit : option Z) (stdout stderr : string)
  : option (result (string * string)) :=
  if exceeds stdout then Some (Throw "stdout maxBuffer length exceeded")
  else if exceeds stderr then Some (Throw "stderr maxBuffer length exceeded")
  else match exit with
       | None => None
       | Some code =>
           Some (if (code =? 0)%Z then Ok (stdout, stderr)
                 else Throw ("Command failed: " +:+ cmd +:+ Js.nl +:+ stderr))
       end.

(** What [exec] is given by the child. *)
Definition exit_code (c : child_outcome) : option Z :=
  match c with
  | Exited _ code _ _ _ => Some code
  | Hangs _ _ _ _ => None
  end.

Definition elapsed_of (c : child_outcome) : N :=
  match c with
  | Exited elapsed _ _ _ _ => elapsed
  | Hangs elapsed _ _ _ => elapsed
  end.

Definition stdout_of (c : child_outcome) : string :=
  match c with
  | Exited _ _ stdout _ _ => stdout
  | Hangs _ stdout _ _ => stdout
  end.

Definition stderr_of (c : child_outcome) : string :=
  match c with
  | Exited _ _ _ stderr _ => stderr
  | Hangs _ _ stderr _ => stderr
  end.

Definition files_of (c : child_outcome) : directory :=
  match c with
  | Exited _ _ _ _ files => files
  | Hangs _ _ _ files => files
  end.

(** The child leaves its working directory as [files]. *)
Definition child_writes (jobId : string) (files : directory) (w : world)
  : world :=
  World (clock w) (<[jobId := files]> <$> temp w) (timers w).

(** *** Collection of the charts: everything after the [await] *)

Definition is_chart (file : string) : bool :=
  Js.startsWith file "chart_" && Js.endsWith file ".png".

(** [`data:image/png;base64,${imageBuffer.toString('base64')}`] *)
Definition data_uri (imageBuffer : string) : string :=
  "data:image/png;base64," +:+ Base64.encode imageBuffer.

Definition read_chart (e : env) (jobId file : string) : M string :=
  imageBuffer ← readFileSync e jobId file;
  mret (data_uri imageBuffer).

Definition collect (e : env) (jobId stdout : string) : M response :=
  files ← readdirSync e jobId;
  let chartFiles := List.filter is_chart files in
  chartImages ← mapM (read_chart e jobId) chartFiles;
  setTimeout jobId 5000;;
  mret (Json200 chartImages (List.length chartImages)
          ("Successfully generated " +:+ pretty (List.length chartImages)
           +:+ " charts")
          stdout).

Definition after_exec (e : env) (jobId stdout stderr : string) : M response :=
  if Js.nonempty stderr && negb (Js.includes stderr "Warning")
  then throw ("Python execution failed: " +:+ stderr)
  else collect e jobId stdout.

(** The standard error the handler lets pass: empty, or with the text
    [Warning] in it. *)
Definition benign (stderr : string) : bool :=
  negb (Js.nonempty stderr && negb (Js.includes stderr "Warning")).

(** The bytes behind a name of the listing, when it is a regular file. *)
Definition read_data (name : string) (d : directory) : string :=
  match dir_lookup name d with
  | Some (File data) => data
  | _ => EmptyString
  end.

(** The chart files of a directory, in the order of its listing. *)
Definition chartFiles (d : directory) : list string :=
  List.filter is_chart (map fst d).

(** Every chart file of the directory is a regular file. *)
Definition charts_readable (d : directory) : bool :=
  forallb (fun name => match dir_lookup name d with
                       | Some (File _) => true
                       | _ => false
                       end)
          (chartFiles d).

(** What [collect] returns for a directory it can read. *)
Definition chartImages_of (d : directory) : list string :=
  map (fun name => data_uri (read_data name d)) (chartFiles d).

Definition success (images : list string) (stdout : string) : response :=
  Json200 images (List.length images)
    ("Successfully generated " +:+ pretty (List.length images) +:+ " charts")
    stdout.

(** The [catch] block of the handler: one answer for every exception,
    with the exception's message as its [details]. *)
Definition failure (message : string) : response :=
  Json500 "Failed to execute Python code" message
    "Make sure Python is installed with pandas, matplotlib, and seaborn".

Definition catch (x : result response * world) : outcome :=
  match x with
  | (Ok r, w) => Responded r w
  | (Throw message, w) => Responded (failure message) w
  end.

(** *** The route *)

(** A request that has run up to its [await]: answered already, or
    suspended with its job directory allocated. *)
Inductive started : Type :=
| Answered (r : response) (w : world)
| Suspended (jobId : string) (w : world).

Definition start (e : env) (req : request) (w : world) : started :=
  if negb (Js.truthy (csvData req)) || negb (Js.truthy (pythonCode req))
  then Answered (Json400 "csvData and pythonCode are required") w
  else
    match allocate e (Js.text (csvData req)) (Js.text (pythonCode req)) w with
    | (Ok jobId, w') => Suspended jobId w'
    | (Throw message, w') => Answered (failure message) w'
    end.

(** The continuation of the [await]: when the promise settles the
    handler goes on, with the texts of the two streams or in its [catch]
    block; when it never settles neither does the handler. *)
Definition resume (e : env) (jobId : string) (w : world) : outcome :=
  match execAsync (command jobId) (exit_code (child e))
          (stdout_of (child e)) (stderr_of (child e)) with
  | None => Awaiting w
  | Some settled =>
      let w' := child_writes jobId (files_of (child e))
                  (advance (elapsed_of (child e)) w) in
      match settled with
      | Throw message => catch (Throw message, w')
      | Ok (out, err) => catch (after_exec e jobId out err w')
      end
  end.

Definition execute_python (e : env) (req : request) (w : world) : outcome :=
  match start e req w with
| Answered r w' => Responded r w'
| Suspended jobId w' => resume e jobId w'
  end.

(** The identifier a request draws in world [w]. *)
Definition job_of (e : env) (w : world) : string :=
  JobId.jobId (clock w) (random e).

(** The world once a fresh workspace has been written. *)
Definition allocated (e : env) (req : request) (w : world) : world :=
  World (clock w)
    (Some (<[job_of e w :=
               workspace_files (job_of e w) (Js.text (csvData req))
                 (Js.text (pythonCode req))]>
             (default ∅ (temp w))))
    (timers w).

(** The world when the child has exited. *)
Definition exited (e : env) (req : request) (w : world)
    (elapsed : N) (files : directory) : world :=
  child_writes (job_of e w) files (advance elapsed (allocated e req w)).

(** The world with the cleanup of job [jobId] scheduled. *)
Definition scheduled (jobId : string) (w : world) : world :=
  World (clock w) (temp w) (timers w ++ [((clock w + 5000)%N, jobId)]).

End handler.
End Handler.

(** ** The figures of the script

    The epilogue of the composed script is Python; it runs against the
    figure registry of [matplotlib.pyplot].  The registry holds the open
    figures under their numbers, in the order they were created.
    [plt.figure()] opens a figure under the number after the largest one in
    use, [plt.figure(num)] makes figure [num] current and opens it first
    when there is none, [plt.close(num)] drops it, and [plt.get_fignums()]
    lists the numbers in use in ascending order.  A figure is represented
    by the picture [savefig] renders of it. *)

Module Pyplot.

Definition registry : Type := list (nat * string).

Inductive plt_call : Type :=
| NewFigure (picture : string)
| FigureNum (num : nat) (picture : string)
| Close (num : nat).

Fixpoint find_fig (num : nat) (reg : registry) : option string :=
  match reg with
  | [] => None
  | (n, p) :: reg' => if Nat.eqb n num then Some p else find_fig num reg'
  end.

Definition close (num : nat) (reg : registry) : registry :=
  List.filter (fun f => negb (Nat.eqb (fst f) num)) reg.

Definition next_num (reg : registry) : nat := S (max_list (map fst reg)).

Definition get_fignums (reg : registry) : list nat :=
  merge_sort Nat.le (map fst reg).

Definition call (reg : registry) (c : plt_call) : registry :=
  match c with
  | NewFigure p => (reg ++ [(next_num reg, p)])%list
  | FigureNum n p =>
      match find_fig n reg with
      | Some _ => reg
      | None => (reg ++ [(n, p)])%list
      end
  | Close n => close n reg
  end.

(** The registry a code fragment leaves, seen as the calls it makes. *)
Definition run_fragment (calls : list plt_call) : registry :=
  foldl call [] calls.

(** A fragment that leaves the numbering of its figures to pyplot. *)
Definition auto_numbered (c : plt_call) : bool :=
  match c with
  | FigureNum _ _ => false
  | _ => true
  end.

(** What the epilogue does, in order. *)
Inductive event : Type :=
| Savefig (file : string) (num : nat) (picture : string)
| ClosedFig (num : nat).

Record py : Type := Py {
  figs : registry;
  fig_count : nat;
  trace : list event
}.

(** The picture of a figure that [plt.figure(i)] had to open anew. *)
Definition blank : string := EmptyString.

(** The body of [for i in plt.get_fignums():]. *)
Definition save_step (st : py) (i : nat) : py :=
  let fig := default blank (find_fig i (figs st)) in
  Py (close i (figs st))
     (S (fig_count st))
     (trace st ++ [Savefig (chart_name (fig_count st)) i fig; ClosedFig i])%list.

(** The epilogue: [fig_count = 0], then the loop. *)
Definition save_all (reg : registry) : py :=
  foldl save_step (Py reg 0 []) (get_fignums reg).

(** [print(f"Generated {fig_count} charts")] *)
Definition report (st : py) : string :=
  "Generated " +:+ pretty (fig_count st) +:+ " charts" +:+ Js.nl.

(** The files the epilogue has written, in the order it wrote them. *)
Fixpoint saved (tr : list event) : list (string * string) :=
  match tr with
  | [] => []
  | Savefig file _ p :: tr' => (file, p) :: saved tr'
  | ClosedFig _ :: tr' => saved tr'
  end.

(** The figures [plt.figure(i)] gives for the numbers of a list. *)
Definition pictures (reg : registry) (l : list nat) : registry :=
  map (fun i => (i, default blank (find_fig i reg))) l.

(** The figures of a registry in ascending order of their numbers. *)
Definition by_number (reg : registry) : registry :=
  pictures reg (get_fignums reg).

(** The files [chart_k.png], [chart_(k+1).png], ... for a list of
    figures, in the order of the list. *)
Fixpoint numbered (k : nat) (fs : registry) : list (string * string) :=
  match fs with
  | [] => []
  | (_, p) :: fs' => (chart_name k, p) :: numbered (S k) fs'
  end.

(** Each figure of the list saved under the next index and closed right
    after. *)
Fixpoint save_close (k : nat) (fs : registry) : list event :=
  match fs with
  | [] => []
  | (i, p) :: fs' =>
      Savefig (chart_name k) i p :: ClosedFig i :: save_close (S k) fs'
  end.

(** The run of the composed script for a fragment that makes [calls] and
    exits normally after [elapsed] milliseconds, in a working directory
    that holds [cwd]. *)
Definition script_run (calls : list plt_call) (elapsed : N) (cwd : directory)
  : child_outcome :=
  let st := save_all (run_fragment calls) in
  Exited elapsed 0 (report st) EmptyString
    (foldl (fun d f => dir_write (fst f) (snd f) d) cwd (saved (trace st))).

End Pyplot.

(** ** Listings sorted by name

    On the platforms where [fs.readdirSync] returns the names in the order
    of [strcmp], the listing of a directory is its entries sorted by the
    bytes of their names. *)

Definition by_name (a b : string * node) : Prop := String.le (fst a) (fst b).

Global Instance by_name_dec : RelDecision by_name :=
  fun a b => String.le_dec (fst a) (fst b).

Definition listed_by_name (d : directory) : directory := merge_sort by_name d.

(** ** Sample data *)

Module Sample.

Definition tempDir : string := "/srv/app/temp".

Definition no_fault : fs_op -> option string := fun _ => None.

Definition csv : string := "a,b" +:+ Js.nl +:+ "1,2" +:+ Js.nl +:+ "3,4" +:+ Js.nl.

Definition req : request := Request (Some csv) (Some "data.plot()").

(** A server that has just started, before any request. *)
Definition boot : world := World 1700000000000 None [].

(** Two draws that differ in their tenth digit only. *)
Definition draw1 : list nat := [10; 11; 12; 1; 2; 3; 4; 5; 6; 7].
Definition draw2 : list nat := [10; 11; 12; 1; 2; 3; 4; 5; 6; 8].

(** The job directory when the script of [req] starts. *)
Definition job : string := JobId.jobId 1700000000000 draw1.
Definition fresh_files : directory :=
  Handler.workspace_files tempDir job csv "data.plot()".

(** The interpreter draws nothing and exits normally. *)
Definition quiet : env :=
  Env draw1 no_fault
    (Exited 120 0 ("Generated 0 charts" +:+ Js.nl) EmptyString fresh_files).

(** The interpreter exits normally and leaves a note on its standard
    error. *)
Definition noisy : env :=
  Env draw1 no_fault
    (Exited 120 0 ("Generated 0 charts" +:+ Js.nl)
       "Matplotlib is building the font cache; this may take a moment."
       fresh_files).


(** The fragment raises: the interpreter exits with code 1. *)
Definition crashing : env :=
  Env draw1 no_fault
    (Exited 120 1 EmptyString "NameError: name 'df' is not defined" fresh_files).

(** The fragment loops forever and prints nothing. *)
Definition looping : env :=
  Env draw1 no_fault (Hangs 0 EmptyString EmptyString fresh_files).

(** A text of one byte more than a mebibyte. *)
Definition flood : string :=
  N.iter (1024 * 1024 + 1) (String "x"%char) EmptyString.

(** The fragment prints without end and never exits: after two seconds
    that text has arrived on the standard output. *)
Definition flooding : env :=
  Env draw1 no_fault (Hangs 2000 flood EmptyString fresh_files).

(** The fragment prints that text and exits normally. *)
Definition chatty : env :=
  Env draw1 no_fault (Exited 2000 0 flood EmptyString fresh_files).

(** The fragment runs for a million seconds. *)
Definition slow : env :=
  Env draw1 no_fault
    (Exited 1000000000 0 ("Generated 0 charts" +:+ Js.nl) EmptyString fresh_files).

(** The disk is full when the job directory is to be made. *)
Definition disk_full : env :=
  Env draw1
    (fun op => match op with
               | MkdirJob => Some "ENOSPC: no space left on device, mkdir"
               | _ => None
               end)
    (Hangs 0 EmptyString EmptyString fresh_files).

(** The fragment makes a directory with the name of a chart. *)
Definition chart_folder : env :=
  Env draw1 no_fault
    (Exited 120 0 ("Generated 0 charts" +:+ Js.nl) EmptyString
       (fresh_files ++ [("chart_out.png", Folder)])%list).

(** A fragment that opens eleven figures, one after the other. *)
Definition eleven_figures : list Pyplot.plt_call :=
  map (fun k => Pyplot.NewFigure ("figure " +:+ pretty k)) (seq 0 11).

(** The job directory after the script of that fragment, listed by
    name. *)
Definition eleven_files : directory :=
  match Pyplot.script_run eleven_figures 300 fresh_files with
  | Exited _ _ _ _ files => listed_by_name files
  | Hangs _ _ _ _ => []
  end.

Definition eleven : env :=
  Env draw1 no_fault
    (Exited 300 0 ("Generated 11 charts" +:+ Js.nl) EmptyString eleven_files).

(** A fragment that numbers its two figures itself, the second one
    below the first. *)
Definition own_numbers : list Pyplot.plt_call :=
  [Pyplot.FigureNum 2 "first"; Pyplot.FigureNum 1 "second"].

(** A fragment that opens three figures and closes the second. *)
Definition three_minus_one : list Pyplot.plt_call :=
  [Pyplot.NewFigure "first"; Pyplot.NewFigure "second";
   Pyplot.NewFigure "third"; Pyplot.Close 2].

(** The scenario of one figure: the fragment draws once. *)
Definition one_figure : env :=
  Env draw1 no_fault
    (Pyplot.script_run [Pyplot.NewFigure "plot of a against b"] 150
       fresh_files).

(** The scenario of no figure: the fragment only computes. *)
Definition no_figure : env :=
  Env draw1 no_fault (Pyplot.script_run [] 150 fresh_files).

(** A second request, arriving in the same millisecond. *)
Definition req' : request := Request (Some "x,y") (Some "other()").
Definition looping' : env :=
  Env draw2 no_fault (Hangs 0 EmptyString EmptyString fresh_files).


(** The two requests of that millisecond when the fragments end.  The
    interpreter of the first exits after 120 milliseconds, in the
    directory that holds the files of the second by then; the interpreter
    of the second runs for a minute. *)
Definition shared_files : directory :=
  Handler.workspace_files tempDir job "x,y" "other()".

Definition first_of_two : env :=
  Env draw1 no_fault
    (Exited 120 0 ("Generated 0 charts" +:+ Js.nl) EmptyString shared_files).

Definition second_of_two : env :=
  Env draw2 no_fault
    (Exited 60000 0 ("Generated 0 charts" +:+ Js.nl) EmptyString shared_files).

End Sample.

(** * The other routes and the panel

    The texts below are JavaScript strings whose code units are below 256;
    a code unit is one character of [string]. *)

(** ** JavaScript texts *)

Module Text.

(** The white space and line terminators of JavaScript among the code
    units below 256: tab, line feed, vertical tab, form feed, carriage
    return, space and no-break space.  It is the class [\s] of a regular
    expression and what [trim] removes. *)
Definition is_space (c : ascii) : bool :=
  let n := nat_of_ascii c in
  (Nat.leb 9 n && Nat.leb n 13) || Nat.eqb n 32 || Nat.eqb n 160.

(** [s.trimStart()] *)
Fixpoint trimStart (s : string) : string :=
  match s with
  | EmptyString => EmptyString
  | String c s' => if is_space c then trimStart s' else s
  end.

(** [s.trimEnd()] *)
Fixpoint trimEnd (s : string) : string :=
  match s with
  | EmptyString => EmptyString
  | String c s' =>
      match trimEnd s' with
      | EmptyString => if is_space c then EmptyString else String c EmptyString
      | t => String c t
      end
  end.

(** [s.trim()] *)
Definition trim (s : string) : string := trimEnd (trimStart s).

(** The text is empty or starts with something else than white space. *)
Definition head_nonspace (s : string) : bool :=
  match s with
  | EmptyString => true
  | String c _ => negb (is_space c)
  end.

(** [s.split(sep)] for a separator of one character: at least one piece. *)
Fixpoint split (sep : ascii) (s : string) : list string :=
  match s with
  | EmptyString => [EmptyString]
  | String c s' =>
      if Ascii.eqb c sep then EmptyString :: split sep s'
      else match split sep s' with
           | p :: ps => String c p :: ps
           | [] => [String c EmptyString]
           end
  end.

(** [pieces.join(sep)] *)
Fixpoint join (sep : string) (pieces : list string) : string :=
  match pieces with
  | [] => EmptyString
  | [p] => p
  | p :: ps => p +:+ sep +:+ join sep ps
  end.

(** [s.toLowerCase()] on one code unit below 256: the letters A to Z and
    the capital letters of Latin-1, U+00C0 to U+00DE without the
    multiplication sign. *)
Definition lower (c : ascii) : ascii :=
  let n := nat_of_ascii c in
  if (Nat.leb 65 n && Nat.leb n 90)
     || (Nat.leb 192 n && Nat.leb n 222 && negb (Nat.eqb n 215))
  then ascii_of_nat (n + 32)
  else c.

Fixpoint toLowerCase (s : string) : string :=
  match s with
  | EmptyString => EmptyString
  | String c s' => String (lower c) (toLowerCase s')
  end.

(** [new Blob([s]).size]: the length of the UTF-8 encoding, one byte for a
    code unit below 128 and two for the others below 256. *)
Fixpoint blob_size (s : string) : N :=
  match s with
  | EmptyString => 0%N
  | String c s' =>
      ((if Nat.ltb (nat_of_ascii c) 128 then 1 else 2) + blob_size s')%N
  end.

(** The backtick and the apostrophe, for the texts that contain them. *)
Definition backtick : ascii := ascii_of_nat 96.
Definition fence : string := String backtick (String backtick (String backtick EmptyString)).

End Text.

(** ** Cleaning of a model reply

    Every route that asks the model cleans the reply the same way before
    [JSON.parse]:
    [gptResponse.trim()], [.replace(/```json\s*/g, '')],
    [.replace(/```\s*/g, '')], then [match(/\{[\s\S]*\}/)]. *)

Module Clean.

(** [s.replace(/<lit>\s*/g, '')] for a literal [lit]: every occurrence of
    [lit], found from left to right, goes with the white space after it.
    [m] is the state of the scan: [None] outside a match, [Some n] inside
    one with [n] characters of [lit] still to drop, [Some 0] in the white
    space after it. *)
Fixpoint remove (lit : string) (m : option nat) (s : string) : string :=
  match s with
  | EmptyString => EmptyString
  | String c s' =>
      match m with
      | Some (S n) => remove lit (Some n) s'
      | _ =>
          if (match m with Some _ => true | None => false end)
             && Text.is_space c
          then remove lit (Some 0) s'
          else if String.prefix lit s
               then remove lit (Some (String.length lit - 1)) s'
               else String c (remove lit None s')
      end
  end.

Definition remove_all (lit : string) (s : string) : string := remove lit None s.

(** The suffix that starts at the first opening brace. *)
Fixpoint from_brace (s : string) : option string :=
  match s with
  | EmptyString => None
  | String c s' => if Ascii.eqb c "{" then Some s else from_brace s'
  end.

(** The longest prefix that ends with a closing brace. *)
Fixpoint upto_brace (s : string) : option string :=
  match s with
  | EmptyString => None
  | String c s' =>
      match upto_brace s' with
      | Some p => Some (String c p)
      | None => if Ascii.eqb c "}" then Some (String c EmptyString) else None
      end
  end.

(** [s.match(/\{[\s\S]*\}/)]: from the first opening brace to the last
    closing brace after it. *)
Definition match_object (s : string) : option string :=
  match from_brace s with
  | Some t => upto_brace t
  | None => None
  end.

(** The text handed to [JSON.parse]. *)
Definition cleanResponse (gptResponse : string) : string :=
  let cleaned :=
    remove_all Text.fence
      (remove_all (Text.fence +:+ "json") (Text.trim gptResponse)) in
  match match_object cleaned with
  | Some jsonMatch => jsonMatch
  | None => cleaned
  end.

(** [python_code.replace(/```python\s*/g, '').replace(/```\s*/g, '').trim()] *)
Definition cleanPython (python_code : string) : string :=
  Text.trim
    (remove_all Text.fence
       (remove_all (Text.fence +:+ "python") python_code)).

End Clean.

(** ** Live data sync

    The routes [/setup-live-sync], [/fetch-sheet-data] and
    [/sync-status/:syncId] share the map [liveSyncConfigs].  Times are
    milliseconds since the epoch; the clock is read once for one request. *)

Module LiveSync.

(** A JSON number: a double. *)
Definition number : Type := PrimFloat.float.

(** A reading of the millisecond clock as a number. *)
Definition of_clock (t : N) : number :=
  PrimFloat.of_uint63 (Uint63.of_Z (Z.of_N t)).

(** [!x] for a number: zero, of either sign, and [NaN]. *)
Definition falsy (x : number) : bool :=
  PrimFloat.eqb x PrimFloat.zero || PrimFloat.is_nan x.

(** The time value of a [Date]: a whole number of milliseconds, or none
    for an [Invalid Date]. *)
Definition date : Type := option Z.

(** The whole part of a finite number. *)
Definition trunc (x : number) : option Z :=
  match FloatOps.Prim2SF x with
  | SpecFloat.S754_zero _ => Some 0%Z
  | SpecFloat.S754_finite s m e =>
      let v := if (0 <=? e)%Z then (Z.pos m * 2 ^ e)%Z
               else (Z.pos m / 2 ^ (- e))%Z in
      Some (if s then (- v)%Z else v)
  | _ => None
  end.

(** [new Date(x)] for a number: the time value is [x] without its
    fraction; the date is invalid when [x] is not finite or is more than
    8.64e15 milliseconds away from the epoch. *)
Definition new_Date (x : number) : date :=
  match trunc x with
  | Some z => if (Z.abs z <=? 8640000000000000)%Z then Some z else None
  | None => None
  end.

(** [new Date(t + x)] for a clock reading or the time of a valid date
    [t]: the sum is the sum of doubles. *)
Definition date_after (t : N) (x : number) : date :=
  new_Date (PrimFloat.add (of_clock t) x).

(** A value of [liveSyncConfigs]; [lastSync] is a date made by
    [new Date()], the clock at that moment; [syncJobId] is never set by
    any route. *)
Record config : Type := Config {
  sheetId : string;
  range : string;
  refreshInterval : number;
  lastSync : N
}.

(** [req.body] of the two [POST] routes; [refreshInterval] is a JSON
    number when it is given. *)
Record body : Type := Body {
  body_sheetId : option string;
  body_range : option string;
  body_refreshInterval : option number;
  body_syncId : option string
}.

Inductive answer : Type :=
| Error400 (error : string)
| Error404 (error : string)
| SetupDone (syncId message sheetId range : string)
            (refreshInterval : number) (nextSync : date)
| SheetData (csvData : string) (lastSync : N) (rowCount : nat)
            (sheetId range : string) (columns : list string)
| Status (syncId : string) (active : bool) (lastSync : N) (nextSync : date)
         (refreshInterval : number) (sheetId range : string).

Definition hour : number := of_clock 3600000.

(** [x || 3600000] for a number that may be absent. *)
Definition interval_or_default (x : option number) : number :=
  match x with
  | Some n => if falsy n then hour else n
  | None => hour
  end.

(** [`sync_${Date.now()}_${Math.random().toString(36).substr(2, 9)}`] *)
Definition syncId_of (clock : N) (ds : list nat) : string :=
  "sync_" +:+ pretty clock +:+ "_" +:+ JobId.suffix ds.

(** [POST /setup-live-sync].  The route reads the clock three times:
    [Date.now()] for the identifier, [new Date()] for [lastSync] and
    [Date.now()] for the [nextSync] it announces. *)
Definition setup (t_id t_last t_next : N) (ds : list nat) (b : body)
    (configs : gmap string config) : answer * gmap string config :=
  if negb (Js.truthy (body_sheetId b)) || negb (Js.truthy (body_range b))
  then (Error400 "sheetId and range are required", configs)
  else
    let syncId := syncId_of t_id ds in
    let c := Config (Js.text (body_sheetId b)) (Js.text (body_range b))
               (interval_or_default (body_refreshInterval b)) t_last in
    (SetupDone syncId "Live sync configured successfully"
       (sheetId c) (range c) (refreshInterval c)
       (date_after t_next (refreshInterval c)),
     <[syncId := c]> configs).

(** The sheet the route returns in place of a call to Google Sheets. *)
Definition mockSheetData : list (list string) :=
  [ ["Date"; "Sales"; "Region"; "Product"];
    ["2024-01-01"; "1000"; "North"; "Widget A"];
    ["2024-01-02"; "1200"; "South"; "Widget B"];
    ["2024-01-03"; "800"; "East"; "Widget A"];
    ["2024-01-04"; "1500"; "West"; "Widget C"] ].

Definition touch (clock : N) (c : config) : config :=
  Config (sheetId c) (range c) (refreshInterval c) clock.

(** [POST /fetch-sheet-data].  The route reads the clock twice:
    [new Date()] for the [lastSync] it stores and [new Date()] for the one
    it answers with. *)
Definition fetch (t_stored t_answer : N) (b : body)
    (configs : gmap string config) : answer * gmap string config :=
  if negb (Js.truthy (body_sheetId b)) || negb (Js.truthy (body_range b))
  then (Error400 "sheetId and range are required", configs)
  else
    let csvData := Text.join Js.nl (map (Text.join ",") mockSheetData) in
    let configs' :=
      if Js.truthy (body_syncId b)
      then match configs !! Js.text (body_syncId b) with
           | Some c => <[Js.text (body_syncId b) := touch t_stored c]> configs
           | None => configs
           end
      else configs in
    (SheetData csvData t_answer (List.length mockSheetData - 1)
       (Js.text (body_sheetId b)) (Js.text (body_range b))
       (hd [] mockSheetData),
     configs').

(** [GET /sync-status/:syncId] *)
Definition status (syncId : string) (configs : gmap string config)
    : answer * gmap string config :=
  match configs !! syncId with
  | None => (Error404 "Sync configuration not found", configs)
  | Some c =>
      (Status syncId true (lastSync c)
         (date_after (lastSync c) (refreshInterval c))
         (refreshInterval c) (sheetId c) (range c),
       configs)
  end.

(** One request to one of the three routes. *)
Inductive request : Type :=
| Setup (t_id t_last t_next : N) (ds : list nat) (b : body)
| Fetch (t_stored t_answer : N) (b : body)
| GetStatus (syncId : string).

Definition serve (r : request) (configs : gmap string config)
    : answer * gmap string config :=
  match r with
  | Setup t_id t_last t_next ds b => setup t_id t_last t_next ds b configs
  | Fetch t_stored t_answer b => fetch t_stored t_answer b configs
  | GetStatus syncId => status syncId configs
  end.

(** The map after a sequence of requests. *)
Definition after (rs : list request) (configs : gmap string config)
    : gmap string config :=
  foldl (fun m r => snd (serve r m)) configs rs.

End LiveSync.

(** ** The panel of the app

    The pure parts of [DataInfographicPanel] and of the components beside
    it: the rendering of bold text, the two animations, the local cleaning
    of a dataset when the analysis route fails, the choice of what a chat
    message triggers, and the quoting of a dataset into a Python text. *)

Module Panel.

(** *** [parseMarkdown] *)

(** A piece of a rendered message: a text, or [<strong>text</strong>]. *)
Inductive piece : Type :=
| Plain (text : string)
| Strong (text : string).

Definition star : ascii := "*"%char.

(** The number of characters before the first asterisk. *)
Fixpoint run (s : string) : nat :=
  match s with
  | EmptyString => 0
  | String c s' => if Ascii.eqb c star then 0 else S (run s')
  end.

Fixpoint skip (n : nat) (s : string) : string :=
  match n, s with
  | S n', String _ s' => skip n' s'
  | _, _ => s
  end.

(** The length of the match of [\*\*[^*]+\*\*] at the start of [s], when
    there is one: two asterisks, the longest run without an asterisk, not
    empty, and two asterisks. *)
Definition bold_at (s : string) : option nat :=
  match s with
  | String a (String b t) =>
      if Ascii.eqb a star && Ascii.eqb b star
      then let n := run t in
           if Nat.eqb n 0 then None
           else if String.prefix "**" (skip n t) then Some (n + 4) else None
      else None
  | _ => None
  end.

(** [text.split(re)] where [re] is the pattern above in a capturing
    group: the texts between the matches and, for the group, the matches
    themselves.  [todo] counts the
    characters of the current match still to pass, [acc] is the text since
    the last match. *)
Fixpoint split_go (s : string) (todo : nat) (acc : string) : list string :=
  match s with
  | EmptyString => [acc]
  | String c s' =>
      match todo with
      | S k => split_go s' k acc
      | O =>
          match bold_at s with
          | Some len =>
              acc :: String.substring 0 len s :: split_go s' (len - 1) EmptyString
          | None => split_go s' 0 (acc +:+ String c EmptyString)
          end
      end
  end.

Definition split_bold (text : string) : list string :=
  split_go text 0 EmptyString.

(** [part.slice(2, -2)] *)
Definition slice_2_2 (part : string) : string :=
  String.substring 2 (String.length part - 2 - 2) part.

Definition render (part : string) : piece :=
  if Js.startsWith part "**" && Js.endsWith part "**"
  then Strong (slice_2_2 part)
  else Plain part.

Definition parseMarkdown (text : string) : list piece :=
  map render (split_bold text).

(** *** [TypingIndicator] *)

(** [setDots(prev => prev === '...' ? '' : prev + '.')], every 500 ms. *)
Definition dots_tick (prev : string) : string :=
  if String.eqb prev "..." then EmptyString else prev +:+ ".".

Fixpoint dots_after (n : nat) : string :=
  match n with
  | O => EmptyString
  | S n' => dots_tick (dots_after n')
  end.

(** *** [AnimatedText] *)

Record typing : Type := Typing {
  displayText : string;
  currentIndex : nat
}.

(** [text[i]] spliced into a text. *)
Definition char_at (text : string) (i : nat) : string :=
  match String.get i text with
  | Some c => String c EmptyString
  | None => "undefined"
  end.

(** The effect of one render: while the index is inside the text a timer
    adds the next character; after that nothing changes. *)
Definition typing_tick (text : string) (st : typing) : typing :=
  if Nat.ltb (currentIndex st) (String.length text)
  then Typing (displayText st +:+ char_at text (currentIndex st))
              (S (currentIndex st))
  else st.

(** [onComplete] is called, and the cursor is gone. *)
Definition typing_done (text : string) (st : typing) : bool :=
  negb (Nat.ltb (currentIndex st) (String.length text)).

Fixpoint typing_after (text : string) (n : nat) : typing :=
  match n with
  | O => Typing EmptyString 0
  | S n' => typing_tick text (typing_after text n')
  end.

(** *** The local cleaning of [performDataCleaning]

    The [catch] branch: what it counts and the dataset it keeps.  The
    completeness percentage of its report is floating point and is left
    out. *)

Definition lf : ascii := ascii_of_nat 10.
Definition comma : ascii := ","%char.

(** [!cell.trim()] *)
Definition blank (cell : string) : bool :=
  String.eqb (Text.trim cell) EmptyString.

Record tally : Type := Tally {
  hasEmptyRows : bool;
  totalCells : nat;
  emptyCells : nat
}.

(** The body of [for (let i = 1; i < lines.length; i++)]. *)
Definition tally_line (width : nat) (t : tally) (line : string) : tally :=
  let cells := Text.split comma line in
  Tally (hasEmptyRows t || negb (Nat.eqb (List.length cells) width))
        (totalCells t + List.length cells)
        (emptyCells t + List.length (List.filter blank cells)).

Definition assess (csvData : string) : tally :=
  let lines := Text.split lf csvData in
  let headers := Text.split comma (hd EmptyString lines) in
  foldl (tally_line (List.length headers)) (Tally false 0 0) (tl lines).

(** [while (cells.length < headers.length) cells.push('')], counted down. *)
Fixpoint pad (missing : nat) (cells : list string) : list string :=
  match missing with
  | O => cells
  | S k => pad k (cells ++ [EmptyString])
  end.

(** The padding, then [cells.splice(headers.length)]. *)
Definition fit (width : nat) (cells : list string) : list string :=
  firstn width (pad (width - List.length cells) cells).

(** [cell.trim() || 'N/A'] *)
Definition fill (cell : string) : string :=
  if blank cell then "N/A" else Text.trim cell.

(** One data line of the cleaned dataset; an empty line is skipped. *)
Definition clean_line (width : nat) (line : string) : option string :=
  let line' := Text.trim line in
  if String.eqb line' EmptyString then None
  else Some (Text.join "," (map fill (fit width (Text.split comma line')))).

Fixpoint clean_lines (width : nat) (lines : list string) : list string :=
  match lines with
  | [] => []
  | line :: rest =>
      match clean_line width line with
      | Some l => l :: clean_lines width rest
      | None => clean_lines width rest
      end
  end.

Definition dirty (t : tally) : bool :=
  Nat.ltb 0 (emptyCells t) || hasEmptyRows t.

(** A row that needs no cleaning: no line feed, as many cells as the
    header, none blank. *)
Definition row_ok (w : nat) (l : string) : Prop :=
  ~ Js.occurs lf l /\ List.length (Text.split comma l) = w /\
  List.filter blank (Text.split comma l) = [].

(** [cleanedData] *)
Definition cleanedData (csvData : string) : string :=
  if dirty (assess csvData)
  then
    let lines := Text.split lf csvData in
    let headers := Text.split comma (hd EmptyString lines) in
    Text.join Js.nl
      (hd EmptyString lines :: clean_lines (List.length headers) (tl lines))
  else csvData.

(** [cleaningActions] *)
Definition cleaningActions (csvData : string) : list string :=
  let t := assess csvData in
  if dirty t
  then (if Nat.ltb 0 (emptyCells t)
        then ["Filled " +:+ pretty (emptyCells t) +:+ " empty cells with 'N/A'"]
        else [])
       ++ (if hasEmptyRows t
           then ["Standardized row lengths to match headers"]
           else [])
  else [].

(** [dataRows], the number the report calls Rows. *)
Definition dataRows (csvData : string) : nat :=
  List.length (Text.split lf csvData) - 1.

(** *** The quoting of the dataset into a Python text

    [dataState.csvData.replace(/'/g, "\\'")], spliced between triple
    apostrophes by [createInitialVisualizations] and
    [generateCorrelationMatrix]. *)

Definition apostrophe : ascii := "'"%char.
Definition backslash : ascii := ascii_of_nat 92.

Fixpoint escape_quotes (s : string) : string :=
  match s with
  | EmptyString => EmptyString
  | String c s' =>
      if Ascii.eqb c apostrophe
      then String backslash (String apostrophe (escape_quotes s'))
      else String c (escape_quotes s')
  end.

(** *** [processChatInput] *)

Inductive step : Type :=
| StepNone
| StepCleaning
| StepExploration
| StepVisualization
| StepCorrelation
| StepAdvanced.

(** What the function starts after it has shown the user's message. *)
Inductive call : Type :=
| Say (content : string) (typingDelay : nat)
| CreateInitialVisualizations
| GenerateCorrelationMatrix
| Later (ms : nat) (c : call)
| HandleNaturalLanguageChart (query : string)
| PerformDataCleaning (csvData fileName : string).

(** The reply of [processChatMessage]: it throws, or gives an action and
    maybe a query. *)
Inductive orchestrator : Type :=
| ApiError
| Result (action : string) (query : option string).

Definition contextual (s : step) : string :=
  match s with
  | StepNone =>
      "I can help you analyze this data. Should I start with data cleaning and quality assessment?"
  | StepCleaning =>
      "The data is cleaned. Would you like me to create some initial visualizations to understand the patterns?"
  | StepExploration =>
      "I can create specific visualizations, generate a correlation matrix, or help with other analysis. What interests you most?"
  | StepVisualization =>
      "Based on the visualizations, I can create a correlation matrix, do statistical analysis, or create specific charts. What would you like to explore?"
  | StepCorrelation =>
      "Perfect! We've covered the correlation analysis. You can now use the action buttons below to run advanced analysis or ask me specific questions about the data patterns."
  | StepAdvanced =>
      "Excellent! Advanced analysis complete. You can run other analyses using the buttons below, generate a comprehensive report, or ask me to create specific visualizations."
  end.

Definition early (s : step) : bool :=
  match s with
  | StepCleaning | StepExploration => true
  | _ => false
  end.

(** [None] when the input is blank and the function returns at once;
    else the calls it makes for the dataset [csvData] of the file
    [fileName] at analysis step [s], when the orchestrator would answer
    [o]. *)
Definition processChatInput (csvData fileName : string) (s : step)
    (o : orchestrator) (input : string) : option (list call) :=
  if String.eqb (Text.trim input) EmptyString then None
  else Some
    (if negb (Js.nonempty csvData)
     then [Say "I need data to analyze first. Please upload a CSV file so we can start with data cleaning and quality assessment." 600]
     else if (10 * 1024 * 1024 <? Text.blob_size csvData)%N
     then [Say "This file is quite large (100k+ rows). I can work with it, but some operations may take longer. What would you like to analyze first?" 600]
     else
       let lowerInput := Text.toLowerCase input in
       if Js.includes lowerInput "all" || Js.includes lowerInput "everything"
          || Js.includes lowerInput "explore all"
       then
         if early s
         then [Say "Creating complete analysis with visualizations and correlation matrix..." 500;
               CreateInitialVisualizations;
               Later 2000 GenerateCorrelationMatrix]
         else match s with
              | StepVisualization =>
                  [Say "Adding correlation matrix to complete the analysis..." 500;
                   GenerateCorrelationMatrix]
              | _ =>
                  [Say "Creating comprehensive analysis..." 500;
                   CreateInitialVisualizations;
                   Later 2000 GenerateCorrelationMatrix]
              end
       else if Js.includes lowerInput "correlation"
               || Js.includes lowerInput "relationship"
       then [GenerateCorrelationMatrix]
       else if Js.includes lowerInput "visualiz" || Js.includes lowerInput "chart"
               || Js.includes lowerInput "graph"
       then if early s then [CreateInitialVisualizations]
            else [HandleNaturalLanguageChart input]
       else if Js.includes lowerInput "clean"
               && match s with StepNone => true | _ => false end
       then [PerformDataCleaning csvData fileName]
       else
         match o with
         | ApiError =>
             [Say "I can help you with visualization, correlation analysis, or creating reports. What would you like to do?" 500]
         | Result action query =>
             if String.eqb action "natural_language_chart"
             then [HandleNaturalLanguageChart
                     (if Js.truthy query then Js.text query else input)]
             else [Say (contextual s) 600]
         end).

End Panel.

(** ** Identifier characters *)

Module Ident.

(** A lower-case letter, a digit or an underscore. *)
Definition word_char (c : ascii) : bool :=
  let n := nat_of_ascii c in
  (Nat.leb 48 n && Nat.leb n 57) || (Nat.leb 97 n && Nat.leb n 122)
  || Nat.eqb n 95.

Fixpoint word (s : string) : bool :=
  match s with
  | EmptyString => true
  | String c s' => word_char c && word s'
  end.

End Ident.

(** * Properties *)

(** ** Strings *)

Section strings.
Import Js.

(** A separator that occurs in neither head splits two equal texts at
    the same place. *)
Lemma split_at_separator c a1 a2 b1 b2 :
  ~ occurs c a1 -> ~ occurs c a2 ->
  a1 +:+ String c b1 = a2 +:+ String c b2 ->
  a1 = a2 /\ b1 = b2.
Proof.
  revert a2. induction a1 as [|x a1 IH]; intros [|y a2] H1 H2 Heq;
    simpl in *.
  - by inversion Heq.
  - inversion Heq; subst. tauto.
  - inversion Heq; subst. tauto.
  - inversion Heq; subst.
    destruct (IH a2) as [-> ->]; auto.
Qed.

Lemma pretty_N_char_digit x : pretty_N_char x <> "_"%char.
Proof. unfold pretty_N_char. by repeat case_match. Qed.

Lemma pretty_N_go_no_underscore x s :
  ~ occurs "_" s -> ~ occurs "_" (pretty_N_go x s).
Proof.
  revert s. induction (N.lt_wf_0 x) as [x _ IH]; intros s Hs.
  destruct (decide (x = 0)%N) as [->|Hx].
  - by rewrite pretty_N_go_0.
  - rewrite pretty_N_go_step by lia.
    apply IH; [apply N.div_lt; lia|].
    simpl. intros [Hc|Hc]; [|done].
    by eapply pretty_N_char_digit.
Qed.

Lemma pretty_N_no_underscore (x : N) : ~ occurs "_" (pretty x).
Proof.
  unfold pretty, pretty_N. case_decide.
  - simpl. intros [?|[]]. discriminate.
  - apply pretty_N_go_no_underscore. simpl. tauto.
Qed.

End strings.

(** ** Job identifiers *)

Section job_ids.
Import JobId.

Lemma jobId_inj clock1 ds1 clock2 ds2 :
  jobId clock1 ds1 = jobId clock2 ds2 ->
  clock1 = clock2 /\ suffix ds1 = suffix ds2.
Proof.
  unfold jobId. intros H.
  apply (inj (String.app "job_")) in H.
  apply split_at_separator in H; auto using pretty_N_no_underscore.
  destruct H as [H1 H2]. split; [|done].
  by apply (inj pretty).
Qed.

(** When two identifiers are the same: two allocations get the same
    identifier exactly when they read the same millisecond and draw the
    same first nine base-36 digits; the paths of their job directories
    then agree or differ with the identifiers. *)
Theorem jobId_equal_iff tempDir clock1 ds1 clock2 ds2 :
  (jobId clock1 ds1 = jobId clock2 ds2
   <-> clock1 = clock2 /\ suffix ds1 = suffix ds2) /\
  (Handler.path_join tempDir (jobId clock1 ds1)
   = Handler.path_join tempDir (jobId clock2 ds2)
   <-> jobId clock1 ds1 = jobId clock2 ds2).
Proof.
  split; split.
  - apply jobId_inj.
  - intros [-> H]. unfold jobId. by rewrite H.
  - unfold Handler.path_join. intros H.
    apply (inj (String.app tempDir)) in H.
    change (String "/" (jobId clock1 ds1) = String "/" (jobId clock2 ds2)) in H.
    exact (f_equal (fun s => match s with
                             | String _ t => t
                             | EmptyString => EmptyString
                             end) H).
  - by intros ->.
Qed.

(** C9, at its failing input: two requests that arrive in the same
    millisecond and whose draws differ only after the ninth digit get the
    same identifier, hence the same job directory; the second one is not
    stopped by the existing directory and overwrites the dataset of the
    first while the first is still waiting for its interpreter. *)
Lemma same_millisecond_same_workspace :
  Sample.draw1 <> Sample.draw2 /\
  jobId 1700000000000 Sample.draw1 = jobId 1700000000000 Sample.draw2 /\
  exists j w1 w2,
    Handler.start Sample.tempDir Sample.looping Sample.req Sample.boot
    = Handler.Suspended j w1 /\
    Handler.start Sample.tempDir Sample.looping' Sample.req' w1
    = Handler.Suspended j w2 /\
    (job_dir j w1 ≫= dir_lookup "data.csv") = Some (File Sample.csv) /\
    (job_dir j w2 ≫= dir_lookup "data.csv") = Some (File "x,y").
Proof.
  split; [discriminate|]. split; [reflexivity|].
  eexists _, _, _. repeat split; vm_compute; reflexivity.
Qed.

End job_ids.

(** ** The handler, step by step *)

Section handler_facts.
Import Handler.
Variable tempDir : string.

Lemma allocate_fresh e csv code w :
  healthy e ->
  job_dir (job_of e w) w = None ->
  allocate tempDir e csv code w
  = (Ok (job_of e w),
     World (clock w)
       (Some (<[job_of e w := workspace_files tempDir (job_of e w) csv code]>
                (default ∅ (temp w))))
       (timers w)).
Proof.
  unfold job_of. set (jobId := JobId.jobId (clock w) (random e)).
  intros He Hfresh.
  unfold allocate, mbind, M_bind, mret, M_ret, existsSync_temp,
    mkdirSync_temp, mkdirSync_job, writeFileSync, guarded.
  fold jobId. rewrite !He.
  assert (Hins : mkdir_job jobId (default ∅ (temp w))
                 = <[jobId := []]> (default ∅ (temp w))).
  { unfold mkdir_job, job_dir in *.
    destruct (temp w) as [jobs|]; simpl.
    - by rewrite Hfresh.
    - by rewrite lookup_empty. }
  destruct w as [c [jobs|] tm]; cbn [temp clock timers] in *;
    rewrite ?He; unfold job_dir;
    cbn [temp clock timers fmap option_fmap option_map default from_option id] in *;
    rewrite Hins;
    repeat (cbn -[modifiedPythonCode insert lookup];
            rewrite ?lookup_insert_eq);
    rewrite !insert_insert_eq; reflexivity.
Qed.

Lemma start_fresh e req w :
  Js.truthy (csvData req) = true -> Js.truthy (pythonCode req) = true ->
  healthy e -> job_dir (job_of e w) w = None ->
  start tempDir e req w = Suspended (job_of e w) (allocated tempDir e req w).
Proof.
  intros Hc Hp He Hf. unfold start. rewrite Hc, Hp. cbn [negb orb].
  by rewrite allocate_fresh.
Qed.

(** *** Time *)

Lemma fire_clock l w :
  clock (foldl fire w l) = clock w.
Proof. revert w. induction l as [|tm l IH]; intros w; [done|]. cbn [foldl]. by rewrite IH. Qed.


Lemma fire_temp_is_Some l w :
  is_Some (temp (foldl fire w l))
  <-> is_Some (temp w).
Proof.
  revert w. induction l as [|tm l IH]; intros w; [done|].
  cbn [foldl]. rewrite IH. unfold fire, cleanup; cbn [temp].
  by rewrite fmap_is_Some.
Qed.





Lemma advance_clock dt w : clock (advance dt w) = (clock w + dt)%N.
Proof. unfold advance. by rewrite fire_clock. Qed.

Lemma advance_temp_is_Some dt w :
  is_Some (temp (advance dt w)) <-> is_Some (temp w).
Proof. unfold advance. by rewrite fire_temp_is_Some. Qed.

Lemma advance_idle dt w :
  timers w = [] -> advance dt w = World (clock w + dt) (temp w) [].
Proof. unfold advance. by intros ->. Qed.

Lemma job_dir_child_writes j files w :
  is_Some (temp w) -> job_dir j (child_writes j files w) = Some files.
Proof.
  intros [jobs Hj]. unfold job_dir, child_writes; cbn [temp].
  rewrite Hj. cbn. apply lookup_insert_eq.
Qed.

Lemma job_dir_exited e req w elapsed files :
  job_dir (job_of e w) (exited tempDir e req w elapsed files) = Some files.
Proof.
  unfold exited. apply job_dir_child_writes, advance_temp_is_Some.
  by eexists.
Qed.

(** *** After the interpreter *)

Lemma mapM_read_chart e j w d names :
  healthy e -> job_dir j w = Some d ->
  forallb (fun name => match dir_lookup name d with
                       | Some (File _) => true
                       | _ => false
                       end) names = true ->
  mapM (read_chart e j) names w
  = (Ok (map (fun name => data_uri (read_data name d)) names), w).
Proof.
  intros He Hd. induction names as [|name names IH]; intros Hall; [done|].
  cbn [forallb] in Hall. apply andb_true_iff in Hall as [Hname Hall].
  cbn [mapM map]. unfold mbind at 1, M_bind.
  unfold read_chart at 1, mbind at 1, M_bind, readFileSync, guarded.
  rewrite He, Hd. unfold read_data.
  destruct (dir_lookup name d) as [[data|]|]; try discriminate.
  cbn [mret M_ret]. unfold mbind, M_bind. by rewrite IH.
Qed.

Lemma collect_readable e j out w d :
  healthy e -> job_dir j w = Some d -> charts_readable d = true ->
  collect e j out w = (Ok (success (chartImages_of d) out), scheduled j w).
Proof.
  intros He Hd Hr. unfold collect, mbind, M_bind, readdirSync, guarded.
  rewrite He, Hd.
  change (List.filter is_chart (map fst d)) with (chartFiles d).
  by rewrite (mapM_read_chart e j w d (chartFiles d) He Hd Hr).
Qed.

Lemma after_exec_benign e j out err w :
  benign err = true -> after_exec e j out err w = collect e j out w.
Proof.
  unfold benign, after_exec. intros H%negb_true_iff. by rewrite H.
Qed.

Lemma after_exec_noise e j out err w :
  benign err = false ->
  after_exec e j out err w
  = (Throw ("Python execution failed: " +:+ err), w).
Proof.
  unfold benign, after_exec. intros H%negb_false_iff. by rewrite H.
Qed.

(** *** What any run leaves alone, whatever throws *)

Lemma allocate_frame e csv code w :
  clock (snd (allocate tempDir e csv code w)) = clock w /\
  timers (snd (allocate tempDir e csv code w)) = timers w.
Proof.
  unfold allocate, mbind, M_bind, mret, M_ret, existsSync_temp,
    mkdirSync_temp, mkdirSync_job, writeFileSync, guarded.
  repeat (case_match; simplify_eq; cbn [snd clock timers]); done.
Qed.

Lemma mapM_read_chart_world e j names w :
  snd (mapM (read_chart e j) names w) = w.
Proof.
  induction names as [|name names IH]; [done|].
  cbn [mapM]. unfold mbind at 1, M_bind.
  unfold read_chart at 1, mbind at 1, M_bind, readFileSync, guarded.
  repeat (case_match; simplify_eq; cbn [snd]); try done.
  all: unfold mbind, M_bind, mret, M_ret in *;
    repeat (case_match; simplify_eq; cbn [snd]);
    match goal with
    | H : mapM _ _ _ = (_, ?w') |- ?w' = _ =>
        rewrite <- IH; by rewrite H
    end.
Qed.

(** [collect] throws and leaves the world as it is, or answers with a
    success and schedules the cleanup of its job. *)
Lemma collect_cases e j out w :
  (exists message, collect e j out w = (Throw message, w)) \/
  (exists images, collect e j out w = (Ok (success images out), scheduled j w)).
Proof.
  unfold collect, mbind, M_bind, readdirSync, guarded.
  destruct (fault e Readdir); [left; eauto|].
  destruct (job_dir j w) as [d|]; [|left; eauto].
  pose proof (mapM_read_chart_world e j (List.filter is_chart (map fst d)) w)
    as Hw.
  destruct (mapM _ _ w) as [[images|message] w1]; cbn [snd] in Hw; subst w1.
  - right. by exists images.
  - left. by exists message.
Qed.

Lemma after_exec_cases e j out err w :
  (exists message, after_exec e j out err w = (Throw message, w)) \/
  (exists images,
      after_exec e j out err w = (Ok (success images out), scheduled j w)).
Proof.
  unfold after_exec. case_match; [left; by eexists|apply collect_cases].
Qed.

Lemma start_cases e req w :
  (Js.truthy (csvData req) && Js.truthy (pythonCode req) = false /\
   start tempDir e req w
   = Answered (Json400 "csvData and pythonCode are required") w) \/
  (Js.truthy (csvData req) && Js.truthy (pythonCode req) = true /\
   exists w1, clock w1 = clock w /\ timers w1 = timers w /\
     ((exists message, start tempDir e req w = Answered (failure message) w1) \/
      start tempDir e req w = Suspended (job_of e w) w1)).
Proof.
  unfold start.
  destruct (Js.truthy (csvData req)), (Js.truthy (pythonCode req));
    cbn [negb orb andb]; auto.
  right. split; [done|].
  pose proof (allocate_frame e (Js.text (csvData req))
                (Js.text (pythonCode req)) w) as [Hc Ht].
  destruct (allocate _ _ _ _ w) as [[j|message] w1] eqn:Ha;
    cbn [snd] in *; exists w1; repeat split; auto.
  - right. f_equal.
    unfold allocate, mbind, M_bind, mret, M_ret in Ha.
    repeat (case_match; simplify_eq); done.
  - left. by exists message.
Qed.

Lemma execAsync_within cmd exit out err :
  exceeds out = false -> exceeds err = false ->
  execAsync cmd exit out err
  = match exit with
    | None => None
    | Some code =>
        Some (if (code =? 0)%Z then Ok (out, err)
              else Throw ("Command failed: " +:+ cmd +:+ Js.nl +:+ err))
    end.
Proof. unfold execAsync. by intros -> ->. Qed.

Lemma execAsync_exceeds cmd exit out err :
  exceeds out = true \/ exceeds err = true ->
  exists name,
    (name = "stdout" \/ name = "stderr") /\
    execAsync cmd exit out err
    = Some (Throw (name +:+ " maxBuffer length exceeded")).
Proof.
  unfold execAsync. destruct (exceeds out).
  - intros _. exists "stdout". auto.
  - destruct (exceeds err); [|by intros [?|?]].
    intros _. exists "stderr". auto.
Qed.

(** The request stays suspended, or it is answered when the promise
    settles: from the [catch] block, or with a success and the cleanup
    of its job scheduled. *)
Lemma resume_cases e j w1 :
  match execAsync (command tempDir j) (exit_code (child e))
          (stdout_of (child e)) (stderr_of (child e)) with
  | None => resume tempDir e j w1 = Awaiting w1
  | Some _ =>
      let w2 := child_writes j (files_of (child e))
                  (advance (elapsed_of (child e)) w1) in
      (exists message,
          resume tempDir e j w1 = Responded (failure message) w2) \/
      (exists images,
          resume tempDir e j w1
          = Responded (success images (stdout_of (child e))) (scheduled j w2))
  end.
Proof.
  unfold resume.
  destruct (execAsync _ _ _ _) as [[[out err]|message]|] eqn:Hx; [| |done].
  - cbn zeta.
    assert (out = stdout_of (child e)) as ->.
    { unfold execAsync in Hx. repeat case_match; simplify_eq; done. }
    destruct (after_exec_cases e j (stdout_of (child e)) err
                (child_writes j (files_of (child e))
                   (advance (elapsed_of (child e)) w1)))
      as [[message ->]|[images ->]]; [left|right]; by eexists.
  - left. by eexists.
Qed.

(** *** Whole runs *)

Section runs.
Variables (e : env) (req : request) (w : world).
Hypothesis Hcsv : Js.truthy (csvData req) = true.
Hypothesis Hcode : Js.truthy (pythonCode req) = true.
Hypothesis Hhealthy : healthy e.
Hypothesis Hfresh : job_dir (job_of e w) w = None.

Lemma run_hangs elapsed out err files :
  child e = Hangs elapsed out err files ->
  exceeds out = false -> exceeds err = false ->
  execute_python tempDir e req w = Awaiting (allocated tempDir e req w).
Proof.
  intros Hch Ho He. unfold execute_python. rewrite start_fresh by done.
  unfold resume. rewrite Hch. cbn [exit_code stdout_of stderr_of].
  by rewrite execAsync_within.
Qed.

Lemma run_exceeds :
  exceeds (stdout_of (child e)) = true \/ exceeds (stderr_of (child e)) = true ->
  exists name,
    (name = "stdout" \/ name = "stderr") /\
    execute_python tempDir e req w
    = Responded (failure (name +:+ " maxBuffer length exceeded"))
        (exited tempDir e req w (elapsed_of (child e)) (files_of (child e))).
Proof.
  intros Hx. unfold execute_python. rewrite start_fresh by done.
  unfold resume.
  destruct (execAsync_exceeds (command tempDir (job_of e w))
              (exit_code (child e)) _ _ Hx) as (name & Hn & ->).
  by exists name.
Qed.

Lemma run_floods_stdout :
  exceeds (stdout_of (child e)) = true ->
  execute_python tempDir e req w
  = Responded (failure "stdout maxBuffer length exceeded")
      (exited tempDir e req w (elapsed_of (child e)) (files_of (child e))).
Proof.
  intros Hx. unfold execute_python. rewrite start_fresh by done.
  unfold resume, execAsync. by rewrite Hx.
Qed.

Lemma run_nonzero elapsed code out err files :
  child e = Exited elapsed code out err files -> code <> 0%Z ->
  exceeds out = false -> exceeds err = false ->
  execute_python tempDir e req w
  = Responded
      (failure ("Command failed: " +:+ command tempDir (job_of e w)
                +:+ Js.nl +:+ err))
      (exited tempDir e req w elapsed files).
Proof.
  intros Hch Hcode0 Ho He. unfold execute_python. rewrite start_fresh by done.
  unfold resume. rewrite Hch. cbn [exit_code stdout_of stderr_of].
  rewrite execAsync_within by done.
  by destruct (Z.eqb_spec code 0).
Qed.

Lemma run_noise elapsed out err files :
  child e = Exited elapsed 0 out err files -> benign err = false ->
  exceeds out = false -> exceeds err = false ->
  execute_python tempDir e req w
  = Responded (failure ("Python execution failed: " +:+ err))
      (exited tempDir e req w elapsed files).
Proof.
  intros Hch Herr Ho He. unfold execute_python. rewrite start_fresh by done.
  unfold resume. rewrite Hch. cbn [exit_code stdout_of stderr_of].
  rewrite execAsync_within by done. cbn [Z.eqb].
  by rewrite after_exec_noise.
Qed.

Lemma run_completed elapsed out err files :
  child e = Exited elapsed 0 out err files -> benign err = true ->
  exceeds out = false -> exceeds err = false ->
  charts_readable files = true ->
  execute_python tempDir e req w
  = Responded (success (chartImages_of files) out)
      (scheduled (job_of e w) (exited tempDir e req w elapsed files)).
Proof.
  intros Hch Herr Ho He Hr. unfold execute_python. rewrite start_fresh by done.
  unfold resume. rewrite Hch.
  cbn [exit_code stdout_of stderr_of files_of elapsed_of].
  rewrite execAsync_within by done. cbn [Z.eqb].
  rewrite after_exec_benign by done.
  pose proof (collect_readable e _ out _ files Hhealthy
                (job_dir_exited e req w elapsed files) Hr) as Hc.
  unfold exited in Hc. by rewrite Hc.
Qed.

End runs.

End handler_facts.

(** ** Request validation *)

Section validation.
Import Handler.

(** C6: a request whose [csvData] or [pythonCode] is absent or empty is
    answered with status 400 at once; the temp directory, the pending
    timers and the clock are those of before, so no job directory has
    been made and no file written. *)
Theorem missing_input_rejected tempDir e req w :
  csvData req = None \/ csvData req = Some EmptyString \/
  pythonCode req = None \/ pythonCode req = Some EmptyString ->
  exists r,
    execute_python tempDir e req w = Responded r w /\
    r = Json400 "csvData and pythonCode are required" /\
    status r = 400.
Proof.
  intros H. eexists; split; [|split; reflexivity].
  unfold execute_python, start.
  assert (Js.truthy (csvData req) = false \/ Js.truthy (pythonCode req) = false)
    as [-> | ->].
  { destruct H as [H|[H|[H|H]]]; rewrite H; auto. }
  - reflexivity.
  - by rewrite orb_true_r.
Qed.

Lemma missing_input_rejected_witness :
  pythonCode (Request (Some Sample.csv) (Some EmptyString)) = Some EmptyString /\
  exists r,
    execute_python Sample.tempDir Sample.quiet
      (Request (Some Sample.csv) (Some EmptyString)) Sample.boot
    = Responded r Sample.boot /\
    r = Json400 "csvData and pythonCode are required" /\
    status r = 400.
Proof.
  split; [reflexivity|].
  apply (missing_input_rejected Sample.tempDir Sample.quiet
           (Request (Some Sample.csv) (Some EmptyString)) Sample.boot).
  right; right; right. reflexivity.
Defined.

End validation.

(** ** The interpreter run and its outcome *)

Section outcomes.
Import Handler.

Lemma benign_spec err :
  benign err = true <-> err = EmptyString \/ Js.includes err "Warning" = true.
Proof.
  unfold benign, Js.nonempty.
  destruct (String.eqb_spec err EmptyString) as [->|Hne]; cbn [negb andb].
  - split; auto.
  - destruct (Js.includes err "Warning"); cbn [negb]; split; auto.
    intros [?|?]; done.
Qed.




(** C5, as the handler has it: a run that exits with code zero is
    answered as a success exactly when neither of its streams has passed
    the limit of [exec] and its standard error is empty or contains
    [Warning]; a stream above the limit, or any other text on standard
    error, turns it into the failure answer, status 500. *)
Theorem zero_exit_completed_iff_benign tempDir e req w elapsed out err files :
  Js.truthy (csvData req) = true -> Js.truthy (pythonCode req) = true ->
  healthy e -> job_dir (job_of e w) w = None ->
  child e = Exited elapsed 0 out err files ->
  charts_readable files = true ->
  exists r w',
    execute_python tempDir e req w = Responded r w' /\
    (status r = 200
     <-> exceeds out = false /\ exceeds err = false /\
         (err = EmptyString \/ Js.includes err "Warning" = true)) /\
    (status r = 500
     <-> exceeds out = true \/ exceeds err = true \/
         (err <> EmptyString /\ Js.includes err "Warning" = false)) /\
    (exceeds out = false -> exceeds err = false ->
     err <> EmptyString -> Js.includes err "Warning" = false ->
     r = failure ("Python execution failed: " +:+ err)).
Proof.
  intros Hcsv Hcode He Hfresh Hch Hr.
  destruct (exceeds out) eqn:Hxo; [|destruct (exceeds err) eqn:Hxe].
  - destruct (run_exceeds tempDir e req w Hcsv Hcode He Hfresh)
      as (name & _ & Hrun).
    { left. by rewrite Hch. }
    eexists _, _. split; [exact Hrun|]. cbn [status failure].
    split_and!; [split; [done|by intros (? & _)]|split; auto|done].
  - destruct (run_exceeds tempDir e req w Hcsv Hcode He Hfresh)
      as (name & _ & Hrun).
    { right. by rewrite Hch. }
    eexists _, _. split; [exact Hrun|]. cbn [status failure].
    split_and!; [split; [done|by intros (_ & ? & _)]|split; auto|done].
  - destruct (benign err) eqn:Herr.
    + eexists _, _. split.
      { apply (run_completed tempDir e req w Hcsv Hcode He Hfresh
                 elapsed out err files Hch Herr Hxo Hxe Hr). }
      apply benign_spec in Herr. cbn [status success]. split_and!.
      * split; auto.
      * split; [discriminate|].
        intros [?|[?|[Hne Hw]]]; try done.
        destruct Herr as [?|?]; [done|congruence].
      * intros _ _ Hne Hw. destruct Herr as [?|?]; [done|congruence].
    + eexists _, _. split.
      { apply (run_noise tempDir e req w Hcsv Hcode He Hfresh
                 elapsed out err files Hch Herr Hxo Hxe). }
      assert (~ (err = EmptyString \/ Js.includes err "Warning" = true)) as Hn.
      { rewrite <- benign_spec. congruence. }
      cbn [status failure]. split_and!.
      * split; [done|]. by intros (_ & _ & ?).
      * split; [|done]. intros _. right. right. split; [tauto|].
        destruct (Js.includes err "Warning"); [tauto|done].
      * done.
Qed.

Lemma zero_exit_completed_iff_benign_witness :
  let err := "Matplotlib is building the font cache; this may take a moment." in
  let out := "Generated 0 charts" +:+ Js.nl in
  (Js.truthy (csvData Sample.req) = true /\
   Js.truthy (pythonCode Sample.req) = true /\
   healthy Sample.noisy /\
   job_dir (job_of Sample.noisy Sample.boot) Sample.boot = None /\
   child Sample.noisy = Exited 120 0 out err Sample.fresh_files /\
   charts_readable Sample.fresh_files = true) /\
  exists r w',
    execute_python Sample.tempDir Sample.noisy Sample.req Sample.boot
    = Responded r w' /\
    (status r = 200
     <-> exceeds out = false /\ exceeds err = false /\
         (err = EmptyString \/ Js.includes err "Warning" = true)) /\
    (status r = 500
     <-> exceeds out = true \/ exceeds err = true \/
         (err <> EmptyString /\ Js.includes err "Warning" = false)) /\
    (exceeds out = false -> exceeds err = false ->
     err <> EmptyString -> Js.includes err "Warning" = false ->
     r = failure ("Python execution failed: " +:+ err)).
Proof.
  intros err out.
  assert (healthy Sample.noisy) as He by (intros op; reflexivity).
  split.
  - split_and!; try reflexivity. exact He.
  - apply (zero_exit_completed_iff_benign Sample.tempDir Sample.noisy
             Sample.req Sample.boot 120 out err Sample.fresh_files);
      try reflexivity. exact He.
Defined.

(** The interpreter exits with code zero after writing a note without
    the text [Warning] to its standard error: the answer is the failure
    answer, not a success. *)
Lemma zero_exit_with_note_fails :
  exists elapsed out files w',
    child Sample.noisy
    = Exited elapsed 0 out
        "Matplotlib is building the font cache; this may take a moment."
        files /\
    execute_python Sample.tempDir Sample.noisy Sample.req Sample.boot
    = Responded
        (Json500 "Failed to execute Python code"
           "Python execution failed: Matplotlib is building the font cache; this may take a moment."
           "Make sure Python is installed with pandas, matplotlib, and seaborn")
        w'.
Proof.
  eexists _, _, _, _. split; [reflexivity|]. vm_compute. reflexivity.
Qed.

End outcomes.

(** ** Waiting for the interpreter *)

Section waiting.
Import Handler.

(** C3, as the handler has it: once the workspace is allocated the
    handler waits for the interpreter without a limit on the time.  The
    only limit is the one [exec] puts on the output.  While neither
    stream has passed it, the handler answers at the moment the child
    exits, however late that is, and never when the child does not exit;
    when a stream passes it the request is answered from the [catch]
    block with the message of [exec].  No answer of a timeout exists. *)
Theorem answers_when_child_exits tempDir e req w jobId w1 :
  start tempDir e req w = Suspended jobId w1 ->
  (exceeds (stdout_of (child e)) = false ->
   exceeds (stderr_of (child e)) = false ->
   match exit_code (child e) with
   | None => execute_python tempDir e req w = Awaiting w1
   | Some _ =>
       exists r w',
         execute_python tempDir e req w = Responded r w' /\
         clock w' = (clock w + elapsed_of (child e))%N
   end) /\
  (exceeds (stdout_of (child e)) = true \/
   exceeds (stderr_of (child e)) = true ->
   exists name w',
     (name = "stdout" \/ name = "stderr") /\
     execute_python tempDir e req w
     = Responded (failure (name +:+ " maxBuffer length exceeded")) w' /\
     clock w' = (clock w + elapsed_of (child e))%N).
Proof.
  intros Hs. unfold execute_python. rewrite Hs.
  destruct (start_cases tempDir e req w) as [[_ H]|[_ (w1' & Hc & _ & H)]];
    [congruence|].
  destruct H as [[message H]|H]; [congruence|].
  rewrite Hs in H. injection H as Hj Hw. subst jobId w1'.
  split.
  - intros Hxo Hxe.
    pose proof (resume_cases tempDir e (job_of e w) w1) as Hr.
    rewrite execAsync_within in Hr by done.
    destruct (exit_code (child e)) as [code|]; [|done].
    cbn zeta in Hr.
    destruct Hr as [[message ->]|[images ->]]; eexists _, _;
      (split; [reflexivity|]);
      unfold scheduled, child_writes; cbn [clock];
      by rewrite advance_clock, Hc.
  - intros Hx. unfold resume.
    destruct (execAsync_exceeds (command tempDir (job_of e w))
                (exit_code (child e)) _ _ Hx) as (name & Hn & ->).
    exists name. eexists. split; [done|]. split; [reflexivity|].
    unfold child_writes; cbn [clock]. by rewrite advance_clock, Hc.
Qed.

Lemma answers_when_child_exits_witness :
  start Sample.tempDir Sample.slow Sample.req Sample.boot
  = Suspended (job_of Sample.slow Sample.boot)
      (allocated Sample.tempDir Sample.slow Sample.req Sample.boot) /\
  exceeds (stdout_of (child Sample.slow)) = false /\
  exceeds (stderr_of (child Sample.slow)) = false /\
  exists r w',
    execute_python Sample.tempDir Sample.slow Sample.req Sample.boot
    = Responded r w' /\
    clock w' = (clock Sample.boot + 1000000000)%N.
Proof.
  assert (start Sample.tempDir Sample.slow Sample.req Sample.boot
          = Suspended (job_of Sample.slow Sample.boot)
              (allocated Sample.tempDir Sample.slow Sample.req Sample.boot))
    as Hs by (vm_compute; reflexivity).
  split; [exact Hs|]. split; [reflexivity|]. split; [reflexivity|].
  exact (proj1 (answers_when_child_exits Sample.tempDir Sample.slow Sample.req
                  Sample.boot _ _ Hs) eq_refl eq_refl).
Defined.

(** A fragment that loops forever and prints nothing leaves its request
    suspended: no answer, hence no timeout failure, is ever produced. *)
Lemma looping_fragment_never_answered :
  exit_code (child Sample.looping) = None /\
  exists w',
    execute_python Sample.tempDir Sample.looping Sample.req Sample.boot
    = Awaiting w' /\
    forall r w'',
      execute_python Sample.tempDir Sample.looping Sample.req Sample.boot
      <> Responded r w''.
Proof.
  split; [reflexivity|].
  eexists. split; [vm_compute; reflexivity|].
  intros r w''. vm_compute. discriminate.
Qed.

Lemma flood_exceeds : exceeds Sample.flood = true.
Proof. vm_compute. reflexivity. Qed.

(** A fragment that prints without end is not left running for ever:
    when more than a mebibyte has arrived [exec] kills it and the request
    is answered from the [catch] block.  A fragment that prints as much
    and exits with code zero gets the same answer. *)
Lemma flooding_fragment_killed :
  exit_code (child Sample.flooding) = None /\
  exit_code (child Sample.chatty) = Some 0%Z /\
  (exists w',
      execute_python Sample.tempDir Sample.flooding Sample.req Sample.boot
      = Responded (failure "stdout maxBuffer length exceeded") w' /\
      clock w' = (clock Sample.boot + 2000)%N) /\
  (exists w',
      execute_python Sample.tempDir Sample.chatty Sample.req Sample.boot
      = Responded (failure "stdout maxBuffer length exceeded") w' /\
      clock w' = (clock Sample.boot + 2000)%N).
Proof.
  split; [reflexivity|]. split; [reflexivity|].
  split; eexists.
  - split; [apply run_floods_stdout|reflexivity];
      [reflexivity|reflexivity|by intros op|reflexivity|exact flood_exceeds].
  - split; [apply run_floods_stdout|reflexivity];
      [reflexivity|reflexivity|by intros op|reflexivity|exact flood_exceeds].
Qed.

End waiting.

(** ** The answers of the route *)

Section answers.
Import Handler.

(** C4, as the handler has it, cause by cause.  A missing input has its
    own answer, status 400.  Every exception, wherever it is thrown, is
    answered by the one [catch] block: status 500, always the same
    [error] and the same [suggestion], and as [details] the message of the
    exception, which is the message of the [fs] call when the workspace
    cannot be made or written, the message of [exec] when a stream has
    passed its limit or the child has exited with another code than zero,
    the standard error after [Python execution failed: ] when that is not
    benign, and the message of the [fs] call when the charts cannot be
    listed or read.  A run that completes has the success answer, status
    200, with the number of its charts. *)
Theorem answers_by_cause tempDir e req w :
  (Js.truthy (csvData req) && Js.truthy (pythonCode req) = false ->
   execute_python tempDir e req w
   = Responded (Json400 "csvData and pythonCode are required") w) /\
  (Js.truthy (csvData req) && Js.truthy (pythonCode req) = true ->
   (forall message w1,
       allocate tempDir e (Js.text (csvData req)) (Js.text (pythonCode req)) w
       = (Throw message, w1) ->
       execute_python tempDir e req w
       = Responded
           (Json500 "Failed to execute Python code" message
              "Make sure Python is installed with pandas, matplotlib, and seaborn")
           w1) /\
   (forall jobId w1,
       allocate tempDir e (Js.text (csvData req)) (Js.text (pythonCode req)) w
       = (Ok jobId, w1) ->
       let c := child e in
       let w2 := child_writes jobId (files_of c) (advance (elapsed_of c) w1) in
       (exceeds (stdout_of c) = true \/ exceeds (stderr_of c) = true ->
        exists name,
          (name = "stdout" \/ name = "stderr") /\
          execute_python tempDir e req w
          = Responded
              (Json500 "Failed to execute Python code"
                 (name +:+ " maxBuffer length exceeded")
                 "Make sure Python is installed with pandas, matplotlib, and seaborn")
              w2) /\
       (exceeds (stdout_of c) = false -> exceeds (stderr_of c) = false ->
        (exit_code c = None -> execute_python tempDir e req w = Awaiting w1) /\
        (forall code, exit_code c = Some code -> code <> 0%Z ->
            execute_python tempDir e req w
            = Responded
                (Json500 "Failed to execute Python code"
                   ("Command failed: " +:+ command tempDir jobId +:+ Js.nl
                    +:+ stderr_of c)
                   "Make sure Python is installed with pandas, matplotlib, and seaborn")
                w2) /\
        (exit_code c = Some 0%Z -> benign (stderr_of c) = false ->
         execute_python tempDir e req w
         = Responded
             (Json500 "Failed to execute Python code"
                ("Python execution failed: " +:+ stderr_of c)
                "Make sure Python is installed with pandas, matplotlib, and seaborn")
             w2) /\
        (exit_code c = Some 0%Z -> benign (stderr_of c) = true ->
         (forall message w3,
             collect e jobId (stdout_of c) w2 = (Throw message, w3) ->
             execute_python tempDir e req w
             = Responded
                 (Json500 "Failed to execute Python code" message
                    "Make sure Python is installed with pandas, matplotlib, and seaborn")
                 w3) /\
         (forall r w3,
             collect e jobId (stdout_of c) w2 = (Ok r, w3) ->
             execute_python tempDir e req w = Responded r w3 /\
             status r = 200 /\
             exists images,
               r = Json200 images (List.length images)
                     ("Successfully generated "
                      +:+ pretty (List.length images) +:+ " charts")
                     (stdout_of c)))))).
Proof.
  unfold execute_python, start. split.
  - intros Hv. apply andb_false_iff in Hv as [-> | ->]; [done|].
    by rewrite orb_true_r.
  - intros Hv. apply andb_true_iff in Hv as [-> ->]. cbn [negb orb].
    split.
    + intros message w1 ->. reflexivity.
    + intros jobId w1 ->. cbn zeta. unfold resume. split.
      * intros Hx.
        destruct (execAsync_exceeds (command tempDir jobId)
                    (exit_code (child e)) _ _ Hx) as (name & Hn & ->).
        by exists name.
      * intros Hxo Hxe. rewrite execAsync_within by done. split_and!.
        -- by intros ->.
        -- intros code -> Hne. by destruct (Z.eqb_spec code 0).
        -- intros -> Hb. cbn [Z.eqb]. by rewrite after_exec_noise.
        -- intros -> Hb. cbn [Z.eqb]. rewrite after_exec_benign by done.
           split.
           ++ intros message w3 Hc. by rewrite Hc.
           ++ intros r w3 Hc. rewrite Hc. cbn [catch].
              destruct (collect_cases e jobId (stdout_of (child e))
                          (child_writes jobId (files_of (child e))
                             (advance (elapsed_of (child e)) w1)))
                as [[message Hc']|[images Hc']]; rewrite Hc' in Hc;
                [discriminate|].
              injection Hc as <- _. split_and!; [done|done|by exists images].
Qed.

(** The theorem at a fragment that raises: the answer with the message
    of [exec] as its [details]. *)
Lemma answers_by_cause_witness :
  Js.truthy (csvData Sample.req) && Js.truthy (pythonCode Sample.req) = true /\
  exit_code (child Sample.crashing) = Some 1%Z /\
  exists w2,
    execute_python Sample.tempDir Sample.crashing Sample.req Sample.boot
    = Responded
        (Json500 "Failed to execute Python code"
           ("Command failed: " +:+ command Sample.tempDir Sample.job +:+ Js.nl
            +:+ "NameError: name 'df' is not defined")
           "Make sure Python is installed with pandas, matplotlib, and seaborn")
        w2.
Proof.
  split; [reflexivity|]. split; [reflexivity|].
  destruct (allocate Sample.tempDir Sample.crashing
              (Js.text (csvData Sample.req)) (Js.text (pythonCode Sample.req))
              Sample.boot) as [[jobId|message] w1] eqn:Ha;
    [|vm_compute in Ha; discriminate Ha].
  assert (jobId = Sample.job) as ->.
  { vm_compute in Ha. injection Ha as <- _. vm_compute. reflexivity. }
  destruct (answers_by_cause Sample.tempDir Sample.crashing Sample.req
              Sample.boot) as [_ H].
  destruct (H eq_refl) as [_ H2].
  destruct (H2 Sample.job w1 Ha) as [_ H3].
  destruct (H3 eq_refl eq_refl) as (_ & H4 & _).
  eexists. apply (H4 1%Z); [reflexivity|discriminate].
Defined.

(** A full disk at the allocation of the workspace and a fragment that
    raises in the interpreter get the same status, [error] and
    [suggestion]: the answer has no field that tells them apart, only
    the free text of [details] differs. *)
Lemma workspace_and_interpreter_failures_alike :
  fault Sample.disk_full MkdirJob
  = Some "ENOSPC: no space left on device, mkdir" /\
  exit_code (child Sample.crashing) = Some 1%Z /\
  exists r1 r2 w1 w2,
    execute_python Sample.tempDir Sample.disk_full Sample.req Sample.boot
    = Responded r1 w1 /\
    execute_python Sample.tempDir Sample.crashing Sample.req Sample.boot
    = Responded r2 w2 /\
    r1 = Json500 "Failed to execute Python code"
           "ENOSPC: no space left on device, mkdir"
           "Make sure Python is installed with pandas, matplotlib, and seaborn" /\
    r2 = Json500 "Failed to execute Python code"
           ("Command failed: " +:+ command Sample.tempDir Sample.job +:+ Js.nl
            +:+ "NameError: name 'df' is not defined")
           "Make sure Python is installed with pandas, matplotlib, and seaborn" /\
    status r1 = status r2 /\
    forall error1 details1 suggestion1 error2 details2 suggestion2,
      r1 = Json500 error1 details1 suggestion1 ->
      r2 = Json500 error2 details2 suggestion2 ->
      error1 = error2 /\ suggestion1 = suggestion2.
Proof.
  split; [reflexivity|]. split; [reflexivity|].
  eexists _, _, _, _.
  split; [vm_compute; reflexivity|]. split; [vm_compute; reflexivity|].
  split; [reflexivity|]. split; [vm_compute; reflexivity|].
  split; [reflexivity|].
  intros ? ? ? ? ? ? [= <- _ <-] [= <- _ <-]. done.
Qed.

End answers.

(** ** Removal of the workspace *)

Section removal.
Import Handler.

(** C2, at its failing inputs: when the fragment raises, and when a
    chart name turns out to be a directory during collection, the
    request is answered with the failure answer, no callback is pending
    afterwards, and the job directory is still there however much time
    passes. *)
Theorem failed_run_keeps_workspace (dt : N) :
  (exists message w' d,
      execute_python Sample.tempDir Sample.crashing Sample.req Sample.boot
      = Responded (failure message) w' /\
      timers w' = [] /\
      job_dir Sample.job (advance dt w') = Some d) /\
  (exists message w' d,
      execute_python Sample.tempDir Sample.chart_folder Sample.req Sample.boot
      = Responded (failure message) w' /\
      timers w' = [] /\
      job_dir Sample.job (advance dt w') = Some d).
Proof.
  split; eexists _, _, _.
  - split; [vm_compute; reflexivity|]. split; [reflexivity|].
    rewrite advance_idle by reflexivity. vm_compute. reflexivity.
  - split; [vm_compute; reflexivity|]. split; [reflexivity|].
    rewrite advance_idle by reflexivity. vm_compute. reflexivity.
Qed.




(** C10, at its failing input.  Two requests arrive in the same
    millisecond and draw the same nine digits, so both are given the same
    job directory, which holds the dataset of the second from then on.
    The interpreter of the first exits after 120 milliseconds and the
    first request is answered with a success; the interpreter of the
    second is to run for a minute.  Five seconds after its answer the
    callback of the first request removes the job directory: the
    workspace of the second request, which is still waiting. *)
Theorem cleanup_removes_shared_workspace :
  exists j wA wB rA w2,
    start Sample.tempDir Sample.first_of_two Sample.req Sample.boot
    = Suspended j wA /\
    start Sample.tempDir Sample.second_of_two Sample.req' wA
    = Suspended j wB /\
    (job_dir j wB ≫= dir_lookup "data.csv") = Some (File "x,y") /\
    resume Sample.tempDir Sample.first_of_two j wB = Responded rA w2 /\
    status rA = 200 /\
    (job_dir j w2 ≫= dir_lookup "data.csv") = Some (File "x,y") /\
    (clock w2 + 5000
     < clock wB + elapsed_of (child Sample.second_of_two))%N /\
    job_dir j (advance 5000 w2) = None.
Proof.
  eexists _, _, _, _, _.
  split; [vm_compute; reflexivity|]. split; [vm_compute; reflexivity|].
  split; [vm_compute; reflexivity|]. split; [vm_compute; reflexivity|].
  split; [reflexivity|]. split; [vm_compute; reflexivity|].
  split; [vm_compute; reflexivity|].
  vm_compute. reflexivity.
Qed.

End removal.

(** ** Collection of the charts *)

Section collection.
Import Handler.

Lemma chartFiles_sublist d : sublist (chartFiles d) (map fst d).
Proof.
  unfold chartFiles. induction (map fst d) as [|name names IH]; [done|].
  cbn [List.filter]. destruct (is_chart name).
  - by apply sublist_skip.
  - by apply sublist_cons.
Qed.

Lemma StronglySorted_lookup_le {A} (R : relation A) (l : list A) i j a b :
  StronglySorted R l -> l !! i = Some a -> l !! j = Some b -> i < j -> R a b.
Proof.
  intros Hs. revert i j. induction Hs as [|x l Hs IH Hall]; intros i j; [done|].
  destruct i as [|i], j as [|j]; cbn; try lia.
  - intros [= <-] Hb _. rewrite Forall_forall in Hall.
    apply Hall. by eapply list_elem_of_lookup_2.
  - intros Ha Hb Hij. apply (IH i j); [done|done|lia].
Qed.

Lemma sublist_StronglySorted {A} (R : relation A) (l k : list A) :
  sublist l k -> StronglySorted R k -> StronglySorted R l.
Proof.
  intros Hsub Hs. revert l Hsub.
  induction Hs as [|x k Hs IH Hall]; intros l Hsub.
  - apply sublist_nil_r in Hsub as ->. constructor.
  - apply sublist_cons_r in Hsub as [Hsub|(l' & -> & Hsub)]; [by apply IH|].
    constructor; [by apply IH|].
    rewrite Forall_forall in *. intros y Hy. apply Hall.
    by eapply elem_of_sublist.
Qed.

Lemma Sorted_names d :
  Sorted by_name d -> StronglySorted String.le (map fst d).
Proof.
  intros Hs. apply Sorted_StronglySorted; [apply _|].
  induction Hs as [|x d Hs IH Hd]; [constructor|].
  cbn [map]. constructor; [done|].
  destruct Hd; constructor. done.
Qed.

(** In a listing sorted by name the tenth chart comes before the
    second. *)
Lemma chart_10_before_2 d n :
  Sorted by_name d -> 11 <= n ->
  chartFiles d ≡ₚ map chart_name (seq 0 n) ->
  exists i j,
    i < j /\ chartFiles d !! i = Some (chart_name 10) /\
    chartFiles d !! j = Some (chart_name 2).
Proof.
  intros Hs Hn Hp.
  assert (StronglySorted String.le (chartFiles d)) as Hss.
  { eapply sublist_StronglySorted; [apply chartFiles_sublist|].
    by apply Sorted_names. }
  assert (forall k, k < n -> chart_name k ∈ chartFiles d) as Hin.
  { intros k Hk. rewrite Hp. apply list_elem_of_fmap. exists k.
    split; [done|]. apply list_elem_of_In, in_seq. lia. }
  destruct (list_elem_of_lookup_1 _ _ (Hin 10 ltac:(lia))) as [i Hi].
  destruct (list_elem_of_lookup_1 _ _ (Hin 2 ltac:(lia))) as [j Hj].
  exists i, j. split; [|done].
  destruct (Nat.lt_trichotomy i j) as [?|[->|Hji]]; [done| |].
  - rewrite Hi in Hj. vm_compute in Hj. discriminate Hj.
  - pose proof (StronglySorted_lookup_le _ _ _ _ _ _ Hss Hj Hi Hji) as Hle.
    vm_compute in Hle. destruct Hle.
Qed.

(** C1, as the handler has it: when the interpreter exits with code
    zero, its streams within the limit of [exec] and its standard error
    benign, and the job directory holds the chart files [chart_0.png] to
    [chart_(n-1).png], all readable, the handler answers with exactly [n]
    images, one for each index, and returns them in the order in which
    the directory listing names the files; it does not sort them, so in a
    listing sorted by name with eleven charts or more the image of
    [chart_10.png] comes before the image of [chart_2.png]. *)
Theorem collect_in_listing_order tempDir e req w elapsed out err files n :
  Js.truthy (csvData req) = true -> Js.truthy (pythonCode req) = true ->
  healthy e -> job_dir (job_of e w) w = None ->
  child e = Exited elapsed 0 out err files ->
  exceeds out = false -> exceeds err = false ->
  err = EmptyString \/ Js.includes err "Warning" = true ->
  charts_readable files = true ->
  chartFiles files ≡ₚ map chart_name (seq 0 n) ->
  exists images w',
    execute_python tempDir e req w
    = Responded
        (Json200 images n
           ("Successfully generated " +:+ pretty n +:+ " charts") out) w' /\
    List.length images = n /\
    sublist (chartFiles files) (map fst files) /\
    images = map (fun name => data_uri (read_data name files))
               (chartFiles files) /\
    images ≡ₚ map (fun k => data_uri (read_data (chart_name k) files))
                (seq 0 n) /\
    (Sorted by_name files -> 11 <= n ->
     exists i j,
       i < j /\
       chartFiles files !! i = Some (chart_name 10) /\
       chartFiles files !! j = Some (chart_name 2) /\
       images !! i = Some (data_uri (read_data (chart_name 10) files)) /\
       images !! j = Some (data_uri (read_data (chart_name 2) files))).
Proof.
  intros Hcsv Hcode He Hfresh Hch Hxo Hxe Herr%benign_spec Hr Hperm.
  assert (List.length (chartImages_of files) = n) as Hlen.
  { unfold chartImages_of.
    rewrite length_map, (Permutation_length Hperm).
    by rewrite length_map, length_seq. }
  exists (chartImages_of files). eexists. split.
  { rewrite (run_completed tempDir e req w Hcsv Hcode He Hfresh
               elapsed out err files Hch Herr Hxo Hxe Hr).
    unfold success. by rewrite Hlen. }
  split; [done|]. split; [apply chartFiles_sublist|]. split; [done|]. split.
  - unfold chartImages_of.
    rewrite <- (map_map chart_name
                  (fun name => data_uri (read_data name files))).
    by apply Permutation_map.
  - intros Hs Hn.
    destruct (chart_10_before_2 files n Hs Hn Hperm) as (i & j & Hij & Hi & Hj).
    exists i, j. unfold chartImages_of.
    rewrite !list_lookup_fmap, Hi, Hj. done.
Qed.

Lemma collect_in_listing_order_witness :
  (Js.truthy (csvData Sample.req) = true /\
   Js.truthy (pythonCode Sample.req) = true /\
   healthy Sample.eleven /\
   job_dir (job_of Sample.eleven Sample.boot) Sample.boot = None /\
   child Sample.eleven
   = Exited 300 0 ("Generated 11 charts" +:+ Js.nl) EmptyString
       Sample.eleven_files /\
   exceeds ("Generated 11 charts" +:+ Js.nl) = false /\
   exceeds EmptyString = false /\
   charts_readable Sample.eleven_files = true /\
   chartFiles Sample.eleven_files ≡ₚ map chart_name (seq 0 11) /\
   Sorted by_name Sample.eleven_files) /\
  exists images w',
    execute_python Sample.tempDir Sample.eleven Sample.req Sample.boot
    = Responded
        (Json200 images 11 "Successfully generated 11 charts"
           ("Generated 11 charts" +:+ Js.nl)) w' /\
    List.length images = 11 /\
    exists i j,
      i < j /\
      images !! i
      = Some (data_uri (read_data (chart_name 10) Sample.eleven_files)) /\
      images !! j
      = Some (data_uri (read_data (chart_name 2) Sample.eleven_files)).
Proof.
  assert (healthy Sample.eleven) as He by (intros op; reflexivity).
  assert (charts_readable Sample.eleven_files = true) as Hr
    by (vm_compute; reflexivity).
  assert (chartFiles Sample.eleven_files ≡ₚ map chart_name (seq 0 11))
    as Hp.
  { refine (bool_decide_unpack _ _). vm_compute. reflexivity. }
  assert (Sorted by_name Sample.eleven_files) as Hs.
  { refine (bool_decide_unpack _ _). vm_compute. reflexivity. }
  split; [split_and!; try reflexivity; done|].
  destruct (collect_in_listing_order Sample.tempDir Sample.eleven Sample.req
              Sample.boot 300 ("Generated 11 charts" +:+ Js.nl) EmptyString
              Sample.eleven_files 11 eq_refl eq_refl He eq_refl eq_refl
              eq_refl eq_refl (or_introl eq_refl) Hr Hp)
    as (images & w' & Hrun & Hlen & _ & _ & _ & Hord).
  destruct (Hord Hs (Nat.le_refl 11)) as (i & j & Hij & _ & _ & Hi & Hj).
  exists images, w'. split; [exact Hrun|]. split; [exact Hlen|].
  exists i, j. split; [exact Hij|]. split; [exact Hi|exact Hj].
Defined.

(** A fragment opens eleven figures; the script saves them as
    [chart_0.png] to [chart_10.png]; the directory is listed by name.
    The handler answers with eleven images of which the third is the
    eleventh figure: the images are not in the order of their index. *)
Lemma eleven_charts_out_of_order :
  Sorted by_name Sample.eleven_files /\
  chartFiles Sample.eleven_files ≡ₚ map chart_name (seq 0 11) /\
  exists images message out w',
    execute_python Sample.tempDir Sample.eleven Sample.req Sample.boot
    = Responded (Json200 images 11 message out) w' /\
    images !! 2%nat = Some (data_uri "figure 10") /\
    read_data (chart_name 10) Sample.eleven_files = "figure 10" /\
    images <> map (fun k => data_uri
                              (read_data (chart_name k) Sample.eleven_files))
                (seq 0 11).
Proof.
  split; [refine (bool_decide_unpack _ _); vm_compute; reflexivity|].
  split; [refine (bool_decide_unpack _ _); vm_compute; reflexivity|].
  eexists _, _, _, _. split; [vm_compute; reflexivity|].
  split; [vm_compute; reflexivity|]. split; [vm_compute; reflexivity|].
  vm_compute. discriminate.
Qed.

End collection.

(** ** The epilogue of the script *)

Section epilogue.
Import Pyplot.

Lemma find_fig_None num reg :
  find_fig num reg = None <-> ~ In num (map fst reg).
Proof.
  induction reg as [|[n p] reg IH]; cbn; [tauto|].
  destruct (Nat.eqb_spec n num) as [->|Hne].
  - split; [discriminate|]. intros H. destruct H. by left.
  - rewrite IH. tauto.
Qed.

Lemma close_cons j n p reg :
  close j ((n, p) :: reg)
  = if Nat.eqb n j then close j reg else (n, p) :: close j reg.
Proof. unfold close; cbn. by destruct (Nat.eqb n j). Qed.

Lemma find_fig_close_ne i j reg :
  i <> j -> find_fig i (close j reg) = find_fig i reg.
Proof.
  intros Hne. induction reg as [|[n p] reg IH]; [done|].
  rewrite close_cons. destruct (Nat.eqb_spec n j) as [->|Hnj]; cbn.
  - destruct (Nat.eqb_spec j i); [congruence|done].
  - by rewrite IH.
Qed.

Lemma In_close f j reg : In f (close j reg) <-> In f reg /\ fst f <> j.
Proof.
  unfold close. rewrite filter_In, negb_true_iff, Nat.eqb_neq. tauto.
Qed.

Lemma In_keys_close i j reg :
  In i (map fst (close j reg)) <-> In i (map fst reg) /\ i <> j.
Proof.
  rewrite !in_map_iff. split.
  - intros (f & <- & Hf%In_close). split; [|tauto]. exists f. tauto.
  - intros [(f & <- & Hf) Hne]. exists f. split; [done|].
    by apply In_close.
Qed.

(** *** The registry of any fragment has one figure for a number *)

Lemma keys_close_NoDup j reg : NoDup (map fst reg) -> NoDup (map fst (close j reg)).
Proof.
  induction reg as [|[n p] reg IH]; [done|].
  rewrite close_cons. cbn. rewrite !NoDup_cons. intros [Hn Hnd].
  destruct (Nat.eqb n j); cbn; [auto|].
  rewrite NoDup_cons. split; [|auto].
  rewrite list_elem_of_In in *. rewrite In_keys_close. tauto.
Qed.

Lemma next_num_fresh reg : ~ In (next_num reg) (map fst reg).
Proof.
  intros Hin. apply list_elem_of_In, max_list_elem_of_le in Hin.
  unfold next_num in Hin. lia.
Qed.

Lemma call_NoDup reg c : NoDup (map fst reg) -> NoDup (map fst (call reg c)).
Proof.
  intros Hnd. destruct c as [p|n p|n]; cbn.
  - rewrite map_app. cbn [map fst]. apply NoDup_app. split; [done|]. split.
    + intros x Hx Heq%list_elem_of_singleton. subst x.
      by apply (next_num_fresh reg), list_elem_of_In.
    + apply NoDup_singleton.
  - destruct (find_fig n reg) eqn:Hf; [done|].
    apply find_fig_None in Hf.
    rewrite map_app. cbn [map fst]. apply NoDup_app. split; [done|]. split.
    + intros x Hx Heq%list_elem_of_singleton. subst x.
      by apply Hf, list_elem_of_In.
    + apply NoDup_singleton.
  - by apply keys_close_NoDup.
Qed.

Lemma foldl_call_NoDup calls reg :
  NoDup (map fst reg) -> NoDup (map fst (foldl call reg calls)).
Proof.
  revert reg. induction calls as [|c calls IH]; intros reg Hnd; [done|].
  cbn. by apply IH, call_NoDup.
Qed.

Lemma run_fragment_NoDup calls : NoDup (map fst (run_fragment calls)).
Proof. apply foldl_call_NoDup. constructor. Qed.

(** *** The loop *)

Lemma pictures_close i reg l :
  ~ In i l -> pictures (close i reg) l = pictures reg l.
Proof.
  intros Hi. apply map_ext_in. intros j Hj.
  rewrite find_fig_close_ne; [done|]. by intros ->.
Qed.

Lemma save_steps l st :
  NoDup l ->
  foldl save_step st l
  = Py (foldl (fun r i => close i r) (figs st) l)
       (fig_count st + List.length l)
       (trace st ++ save_close (fig_count st) (pictures (figs st) l)).
Proof.
  revert st. induction l as [|i l IH]; intros [reg k tr] Hnd.
  - cbn. by rewrite Nat.add_0_r, app_nil_r.
  - apply NoDup_cons in Hnd as [Hi Hnd].
    cbn [foldl]. rewrite IH by done.
    unfold save_step; cbn [figs fig_count trace List.length].
    rewrite pictures_close by (by rewrite <- list_elem_of_In).
    rewrite <- app_assoc. f_equal. lia.
Qed.

Lemma close_all l reg :
  (forall f, In f reg -> In (fst f) l) ->
  foldl (fun r i => close i r) reg l = [].
Proof.
  revert reg. induction l as [|i l IH]; intros reg Hall; cbn.
  - destruct reg as [|f reg]; [done|]. destruct (Hall f). by left.
  - apply IH. intros f [Hf Hne]%In_close.
    destruct (Hall f Hf) as [Heq|Hin]; [congruence|done].
Qed.

Lemma saved_save_close k fs : saved (save_close k fs) = numbered k fs.
Proof.
  revert k. induction fs as [|[i p] fs IH]; intros k; cbn; [done|].
  by rewrite IH.
Qed.

Lemma pictures_keys reg : NoDup (map fst reg) -> pictures reg (map fst reg) = reg.
Proof.
  induction reg as [|[n p] reg IH]; [done|].
  cbn. rewrite NoDup_cons, list_elem_of_In. intros [Hn Hnd].
  rewrite Nat.eqb_refl. cbn. f_equal.
  rewrite <- IH at 2 by done. apply map_ext_in. intros i Hi.
  destruct (Nat.eqb_spec n i); [congruence|done].
Qed.

Lemma get_fignums_NoDup reg : NoDup (map fst reg) -> NoDup (get_fignums reg).
Proof. unfold get_fignums. by rewrite merge_sort_Permutation. Qed.

Lemma keys_by_number reg : map fst (by_number reg) = get_fignums reg.
Proof.
  unfold by_number, pictures. rewrite map_map. cbn. apply map_id.
Qed.

(** *** Figures numbered by pyplot are numbered in creation order *)

Lemma keys_close_sorted j reg :
  StronglySorted lt (map fst reg) -> StronglySorted lt (map fst (close j reg)).
Proof.
  induction reg as [|[n p] reg IH]; [done|].
  rewrite close_cons. cbn. intros [Hs Hall]%StronglySorted_inv.
  destruct (Nat.eqb n j); cbn; [auto|].
  constructor; [auto|].
  rewrite Forall_forall in *. intros i Hi%list_elem_of_In%In_keys_close.
  apply Hall, list_elem_of_In. tauto.
Qed.

Lemma call_sorted reg c :
  auto_numbered c = true ->
  StronglySorted lt (map fst reg) -> StronglySorted lt (map fst (call reg c)).
Proof.
  intros Hc Hs. destruct c as [p|n p|n]; [|discriminate|].
  - cbn. rewrite map_app. cbn [map fst].
    apply StronglySorted_app_2; [|done|repeat constructor].
    intros x1 x2 Hx1 Hx2%list_elem_of_singleton. subst x2.
    apply max_list_elem_of_le in Hx1. unfold next_num. lia.
  - by apply keys_close_sorted.
Qed.

Lemma foldl_call_sorted calls reg :
  forallb auto_numbered calls = true ->
  StronglySorted lt (map fst reg) ->
  StronglySorted lt (map fst (foldl call reg calls)).
Proof.
  revert reg. induction calls as [|c calls IH]; intros reg Hc Hs; [done|].
  cbn in *. apply andb_true_iff in Hc as [Hc Hcs].
  by apply IH, call_sorted.
Qed.

Lemma sorted_get_fignums reg :
  StronglySorted lt (map fst reg) -> get_fignums reg = map fst reg.
Proof.
  intros Hs. unfold get_fignums.
  apply (Sorted_unique Nat.le).
  - apply Sorted_merge_sort. apply _.
  - apply StronglySorted_Sorted.
    induction Hs as [|x l Hs IH Hall]; constructor; [done|].
    eapply Forall_impl; [exact Hall|]. cbn. intros; unfold Nat.le; lia.
  - apply merge_sort_Permutation.
Qed.

Lemma save_all_spec reg :
  NoDup (map fst reg) ->
  save_all reg
  = Py [] (List.length reg) (save_close 0 (by_number reg)).
Proof.
  intros Hnd. unfold save_all.
  rewrite save_steps by by apply get_fignums_NoDup.
  cbn [figs fig_count trace app]. f_equal.
  - apply close_all. intros f Hf.
    apply list_elem_of_In. unfold get_fignums.
    rewrite merge_sort_Permutation. apply list_elem_of_In, in_map, Hf.
  - unfold get_fignums.
    by rewrite (Permutation_length (merge_sort_Permutation _ _)), length_map.
Qed.

(** C8, as the script has it: the epilogue saves the figures that are
    open at the end of the fragment as [chart_0.png], [chart_1.png], ...
    without a gap, one file for each figure, closes each figure right
    after saving it and leaves none open; the files follow the ascending
    order of the figure numbers, which is the order of creation whenever
    the fragment leaves the numbering of its figures to pyplot. *)
Theorem epilogue_saves_by_figure_number calls :
  let reg := run_fragment calls in
  let st := save_all reg in
  trace st = save_close 0 (by_number reg) /\
  saved (trace st) = numbered 0 (by_number reg) /\
  figs st = [] /\
  fig_count st = List.length reg /\
  by_number reg ≡ₚ reg /\
  Sorted Nat.le (map fst (by_number reg)) /\
  (forallb auto_numbered calls = true ->
   by_number reg = reg /\ saved (trace st) = numbered 0 reg).
Proof.
  intros reg st.
  pose proof (run_fragment_NoDup calls) as Hnd. fold reg in Hnd.
  assert (by_number reg ≡ₚ reg) as Hperm.
  { rewrite <- (pictures_keys reg Hnd) at 2.
    unfold by_number, pictures, get_fignums.
    apply Permutation_map, merge_sort_Permutation. }
  assert (saved (trace st) = numbered 0 (by_number reg)) as Hsaved.
  { unfold st. rewrite save_all_spec by done. apply saved_save_close. }
  assert (forallb auto_numbered calls = true -> by_number reg = reg)
    as Hauto.
  { intros Hc. unfold by_number. rewrite sorted_get_fignums.
    - by apply pictures_keys.
    - apply foldl_call_sorted; [done|constructor]. }
  split_and!; try done.
  - unfold st. by rewrite save_all_spec.
  - unfold st. by rewrite save_all_spec.
  - unfold st. by rewrite save_all_spec.
  - rewrite keys_by_number. apply Sorted_merge_sort. apply _.
  - intros Hc. split; [auto|]. by rewrite Hsaved, Hauto.
Qed.

Lemma epilogue_saves_by_figure_number_witness :
  forallb auto_numbered Sample.three_minus_one = true /\
  by_number (run_fragment Sample.three_minus_one)
  = run_fragment Sample.three_minus_one /\
  saved (trace (save_all (run_fragment Sample.three_minus_one)))
  = numbered 0 (run_fragment Sample.three_minus_one).
Proof.
  split; [reflexivity|].
  exact (proj2 (proj2 (proj2 (proj2 (proj2 (proj2
           (epilogue_saves_by_figure_number Sample.three_minus_one))))))
           eq_refl).
Defined.

(** A fragment that opens figure 2 and then figure 1 has its second
    figure saved as [chart_0.png] and its first as [chart_1.png]: the
    indices do not follow the order of creation. *)
Lemma own_numbers_change_order :
  run_fragment Sample.own_numbers = [(2, "first"); (1, "second")] /\
  saved (trace (save_all (run_fragment Sample.own_numbers)))
  = [("chart_0.png", "second"); ("chart_1.png", "first")] /\
  saved (trace (save_all (run_fragment Sample.own_numbers)))
  <> numbered 0 (run_fragment Sample.own_numbers).
Proof.
  split; [reflexivity|]. split; [vm_compute; reflexivity|].
  vm_compute. discriminate.
Qed.

End epilogue.

(** ** Scenarios, from the fragment to the answer *)

Section scenarios.
Import Handler.

(** One figure drawn over the dataset [a,b / 1,2 / 3,4]: one chart, one
    image, and the directory is gone five seconds later. *)
Example one_figure_one_chart :
  exists w',
    execute_python Sample.tempDir Sample.one_figure Sample.req Sample.boot
    = Responded
        (Json200 [data_uri "plot of a against b"] 1
           "Successfully generated 1 charts"
           ("Generated 1 charts" +:+ Js.nl))
        w' /\
    (job_dir Sample.job w' ≫= dir_lookup "chart_0.png")
    = Some (File "plot of a against b") /\
    job_dir Sample.job (advance 5000 w') = None.
Proof.
  eexists. split; [vm_compute; reflexivity|].
  split; vm_compute; reflexivity.
Qed.

(** No figure drawn: a success with no image. *)
Example no_figure_no_chart :
  exists w',
    execute_python Sample.tempDir Sample.no_figure Sample.req Sample.boot
    = Responded
        (Json200 [] 0 "Successfully generated 0 charts"
           ("Generated 0 charts" +:+ Js.nl))
        w'.
Proof. eexists. vm_compute. reflexivity. Qed.

End scenarios.

(** * Properties of the other routes and of the panel *)

(** ** Texts *)

Section texts.
Import Js Text.

Lemma str_app_nil (t : string) : EmptyString +:+ t = t.
Proof. reflexivity. Qed.

Lemma str_app_cons c (s t : string) : String c s +:+ t = String c (s +:+ t).
Proof. reflexivity. Qed.

Lemma str_app_nil_r (s : string) : s +:+ EmptyString = s.
Proof. induction s as [|c s IH]; [done|]. by rewrite str_app_cons, IH. Qed.

Lemma str_app_assoc (s1 s2 s3 : string) :
  (s1 +:+ s2) +:+ s3 = s1 +:+ (s2 +:+ s3).
Proof.
  induction s1 as [|c s1 IH]; [done|]. by rewrite !str_app_cons, IH.
Qed.

Lemma str_length_app (s1 s2 : string) :
  String.length (s1 +:+ s2) = String.length s1 + String.length s2.
Proof.
  induction s1 as [|c s1 IH]; [done|]. rewrite str_app_cons. cbn. by rewrite IH.
Qed.

Lemma occurs_app c s1 s2 :
  occurs c (s1 +:+ s2) <-> occurs c s1 \/ occurs c s2.
Proof.
  induction s1 as [|a s1 IH]; [cbn; tauto|].
  rewrite str_app_cons. cbn. rewrite IH. tauto.
Qed.

(** *** [includes], [startsWith], [endsWith] *)

Lemma prefix_nil s : String.prefix EmptyString s = true.
Proof. by destruct s. Qed.

Lemma prefix_cons a p b s :
  String.prefix (String a p) (String b s)
  = if ascii_dec a b then String.prefix p s else false.
Proof. reflexivity. Qed.

Lemma prefix_app p s t :
  String.prefix p s = true -> String.prefix p (s +:+ t) = true.
Proof.
  revert s. induction p as [|a p IH]; intros s.
  - intros _. apply prefix_nil.
  - destruct s as [|b s]; [done|]. rewrite str_app_cons, !prefix_cons.
    destruct (ascii_dec a b); [auto|done].
Qed.

Lemma prefix_app_self p t : String.prefix p (p +:+ t) = true.
Proof.
  induction p as [|a p IH]; [apply prefix_nil|].
  rewrite str_app_cons, prefix_cons. by destruct (ascii_dec a a).
Qed.

Lemma prefix_inv p s :
  String.prefix p s = true -> exists t, s = p +:+ t.
Proof.
  revert s. induction p as [|a p IH]; intros s H.
  - by exists s.
  - destruct s as [|b s]; [done|]. rewrite prefix_cons in H.
    destruct (ascii_dec a b) as [->|]; [|done].
    destruct (IH s H) as [t ->]. by exists t.
Qed.

Lemma includes_nil p : includes EmptyString p = String.prefix p EmptyString.
Proof. by destruct p. Qed.

Lemma includes_cons c s p :
  includes (String c s) p = String.prefix p (String c s) || includes s p.
Proof. cbn [includes]. by destruct (String.prefix p (String c s)). Qed.

Lemma includes_app_l s t p : includes s p = true -> includes (s +:+ t) p = true.
Proof.
  induction s as [|c s IH].
  - rewrite includes_nil. destruct p; [|done]. intros _.
    rewrite str_app_nil. destruct t; [done|].
    by rewrite includes_cons, prefix_nil.
  - rewrite str_app_cons, !includes_cons. intros [H|H]%orb_true_iff.
    + rewrite <- str_app_cons. by rewrite (prefix_app _ _ _ H).
    + rewrite (IH H). apply orb_true_r.
Qed.

Lemma includes_app_r s t p : includes t p = true -> includes (s +:+ t) p = true.
Proof.
  intros H. induction s as [|c s IH]; [done|].
  rewrite str_app_cons, includes_cons, IH. apply orb_true_r.
Qed.

Lemma endsWith_cons c s p :
  endsWith (String c s) p = String.eqb (String c s) p || endsWith s p.
Proof. cbn [endsWith]. by destruct (String.eqb (String c s) p). Qed.

Lemma endsWith_app s p : endsWith (s +:+ p) p = true.
Proof.
  induction s as [|c s IH].
  - rewrite str_app_nil. destruct p; [done|].
    by rewrite endsWith_cons, String.eqb_refl.
  - by rewrite str_app_cons, endsWith_cons, IH, orb_true_r.
Qed.

(** *** [trim] *)

Lemma trimStart_suffix s : exists w, s = w +:+ trimStart s.
Proof.
  induction s as [|c s [w IH]]; [by exists EmptyString|].
  cbn [trimStart]. destruct (is_space c).
  - exists (String c w). by rewrite str_app_cons, <- IH.
  - by exists EmptyString.
Qed.

Lemma trimEnd_cons c s :
  trimEnd (String c s)
  = if String.eqb (trimEnd s) EmptyString
    then (if is_space c then EmptyString else String c EmptyString)
    else String c (trimEnd s).
Proof. cbn [trimEnd]. by destruct (trimEnd s). Qed.

Lemma trimEnd_prefix s : exists w, s = trimEnd s +:+ w.
Proof.
  induction s as [|c s [w IH]]; [by exists EmptyString|].
  rewrite trimEnd_cons. destruct (String.eqb_spec (trimEnd s) EmptyString) as [He|Hne].
  - rewrite He, str_app_nil in IH. subst w. destruct (is_space c).
    + by exists (String c s).
    + by exists s.
  - exists w. by rewrite str_app_cons, <- IH.
Qed.

Lemma trimStart_head s : head_nonspace (trimStart s) = true.
Proof.
  induction s as [|c s IH]; [done|]. cbn [trimStart].
  destruct (is_space c) eqn:Hc; [done|]. cbn. by rewrite Hc.
Qed.

Lemma trimStart_id s : head_nonspace s = true -> trimStart s = s.
Proof.
  destruct s as [|c s]; [done|]. cbn. by intros ->%negb_true_iff.
Qed.

Lemma trimEnd_head s : head_nonspace s = true -> head_nonspace (trimEnd s) = true.
Proof.
  destruct s as [|c s]; [done|]. rewrite trimEnd_cons. cbn.
  intros Hc. destruct (String.eqb _ _); [|done].
  apply negb_true_iff in Hc. rewrite Hc. cbn. by rewrite Hc.
Qed.

Lemma trimEnd_idem s : trimEnd (trimEnd s) = trimEnd s.
Proof.
  induction s as [|c s IH]; [done|]. rewrite trimEnd_cons.
  destruct (String.eqb_spec (trimEnd s) EmptyString) as [He|Hne].
  - destruct (is_space c) eqn:Hc; [done|]. rewrite trimEnd_cons. cbn.
    by rewrite Hc.
  - rewrite trimEnd_cons, IH. by destruct (String.eqb_spec (trimEnd s) EmptyString).
Qed.

Lemma trim_idem s : trim (trim s) = trim s.
Proof.
  unfold trim. rewrite (trimStart_id (trimEnd (trimStart s))).
  - apply trimEnd_idem.
  - apply trimEnd_head, trimStart_head.
Qed.

Lemma occurs_trim c s : occurs c (trim s) -> occurs c s.
Proof.
  unfold trim. intros H.
  destruct (trimStart_suffix s) as [w Hw].
  destruct (trimEnd_prefix (trimStart s)) as [w' Hw'].
  rewrite Hw, occurs_app. right. rewrite Hw', occurs_app. by left.
Qed.

Lemma includes_trim s p : includes (trim s) p = true -> includes s p = true.
Proof.
  unfold trim. intros H.
  destruct (trimStart_suffix s) as [w Hw].
  destruct (trimEnd_prefix (trimStart s)) as [w' Hw'].
  rewrite Hw. apply includes_app_r. rewrite Hw'. by apply includes_app_l.
Qed.

Lemma trimStart_app a c t :
  is_space c = false ->
  trimStart (a +:+ String c t) = trimStart a +:+ String c t.
Proof.
  intros Hc. induction a as [|x a IH].
  - rewrite !str_app_nil. cbn. by rewrite Hc.
  - rewrite str_app_cons. cbn [trimStart]. by destruct (is_space x).
Qed.

(** *** [split] and [join] *)

Lemma split_nonempty sep s : split sep s <> [].
Proof.
  destruct s as [|c s]; [done|]. cbn [split].
  destruct (Ascii.eqb c sep); [done|]. by destruct (split sep s).
Qed.

Lemma split_cons sep c s :
  split sep (String c s)
  = if Ascii.eqb c sep then EmptyString :: split sep s
    else String c (hd EmptyString (split sep s)) :: tl (split sep s).
Proof.
  cbn [split]. destruct (Ascii.eqb c sep); [done|].
  pose proof (split_nonempty sep s). by destruct (split sep s).
Qed.

Lemma join_cons sep p ps :
  ps <> [] -> join sep (p :: ps) = p +:+ sep +:+ join sep ps.
Proof. by destruct ps. Qed.

Lemma split_no_sep sep s : Forall (fun p => ~ occurs sep p) (split sep s).
Proof.
  induction s as [|c s IH].
  { cbn. constructor; [by intros []|constructor]. }
  rewrite split_cons. pose proof (split_nonempty sep s) as Hne.
  destruct (Ascii.eqb_spec c sep) as [->|Hc].
  - constructor; [by intros []|done].
  - destruct (split sep s) as [|p ps]; [done|]. cbn [hd tl].
    apply Forall_cons in IH as [Hp Hps]. constructor; [|done].
    cbn. intros [?|?]; [congruence|done].
Qed.

Lemma split_occurs sep s p c : In p (split sep s) -> occurs c p -> occurs c s.
Proof.
  revert p. induction s as [|x s IH]; intros p.
  - intros [<-|[]]. done.
  - rewrite split_cons. pose proof (split_nonempty sep s) as Hne.
    destruct (Ascii.eqb x sep).
    + intros [<-|Hin]; [done|]. intros H. right. by eapply IH.
    + destruct (split sep s) as [|q qs]; [done|]. cbn [hd tl] in *.
      intros [<-|Hin].
      * intros [->|H]; [by left|]. right. apply (IH q); [by left|done].
      * intros H. right. apply (IH p); [by right|done].
Qed.

Lemma split_plain sep p : ~ occurs sep p -> split sep p = [p].
Proof.
  induction p as [|c p IH]; [done|]. cbn [occurs]. intros Hn.
  rewrite split_cons. destruct (Ascii.eqb_spec c sep) as [->|Hc]; [tauto|].
  rewrite IH by tauto. done.
Qed.

Lemma split_app_sep sep p s :
  ~ occurs sep p ->
  split sep (p +:+ String sep s) = p :: split sep s.
Proof.
  induction p as [|c p IH]; cbn [occurs]; intros Hn.
  - rewrite str_app_nil, split_cons. by rewrite Ascii.eqb_refl.
  - rewrite str_app_cons, split_cons.
    destruct (Ascii.eqb_spec c sep) as [->|Hc]; [tauto|].
    rewrite IH by tauto. done.
Qed.

(** Splitting a join of pieces that do not contain the separator gives
    the pieces back. *)
Lemma split_join sep ps :
  ps <> [] -> Forall (fun p => ~ occurs sep p) ps ->
  split sep (join (String sep EmptyString) ps) = ps.
Proof.
  induction ps as [|p ps IH]; [done|]. intros _ [Hp Hps]%Forall_cons.
  destruct ps as [|q ps].
  - by apply split_plain.
  - rewrite join_cons by done. rewrite str_app_cons, str_app_nil.
    rewrite split_app_sep by done. by rewrite IH.
Qed.

Lemma split_snoc_sep sep s :
  split sep (s +:+ String sep EmptyString)
  = (split sep s ++ [EmptyString])%list.
Proof.
  induction s as [|c s IH].
  - rewrite str_app_nil. cbn. by rewrite Ascii.eqb_refl.
  - rewrite str_app_cons, !split_cons, IH.
    pose proof (split_nonempty sep s) as Hne.
    destruct (Ascii.eqb c sep); [done|].
    by destruct (split sep s).
Qed.

End texts.

(** ** Cleaning of a model reply *)

Section cleaning.
Import Js Text Clean.

Lemma remove_spaces lit s :
  remove lit (Some 0) s = remove lit None (trimStart s).
Proof.
  induction s as [|c s IH]; [done|].
  cbn [remove trimStart andb]. destruct (is_space c) eqn:Hc; [done|].
  cbn [remove]. by rewrite Hc.
Qed.

Lemma remove_drop lit x t :
  remove lit (Some (String.length x)) (x +:+ t) = remove lit (Some 0) t.
Proof.
  induction x as [|c x IH]; [done|]. by rewrite str_app_cons.
Qed.

(** At a match the literal and the white space after it go. *)
Lemma remove_at_match l0 lit t :
  remove (String l0 lit) None (String l0 lit +:+ t)
  = remove (String l0 lit) None (trimStart t).
Proof.
  pose proof (prefix_app_self (String l0 lit) t) as Hp.
  rewrite str_app_cons in *. cbn [remove andb]. rewrite Hp.
  replace (String.length (String l0 lit) - 1) with (String.length lit)
    by (cbn [String.length]; lia).
  by rewrite remove_drop, remove_spaces.
Qed.

Lemma remove_no_match lit c s :
  String.prefix lit (String c s) = false ->
  remove lit None (String c s) = String c (remove lit None s).
Proof. intros H. cbn [remove andb]. by rewrite H. Qed.

(** Removal adds no character. *)
Lemma occurs_remove lit c m s : occurs c (remove lit m s) -> occurs c s.
Proof.
  revert m. induction s as [|x s IH]; intros m; [done|].
  cbn [remove]. destruct m as [[|n]|].
  - cbn [andb]. destruct (is_space x).
    + intros H. right. by eapply IH.
    + destruct (String.prefix lit (String x s)).
      * intros H. right. by eapply IH.
      * intros [->|H]; [by left|]. right. by eapply IH.
  - intros H. right. by eapply IH.
  - cbn [andb]. destruct (String.prefix lit (String x s)).
    + intros H. right. by eapply IH.
    + intros [->|H]; [by left|]. right. by eapply IH.
Qed.

(** A stretch in which no match starts is kept as it is. *)
Lemma remove_keep lit a rest :
  (forall a1 c a2, a = a1 +:+ String c a2 ->
                   String.prefix lit (String c a2 +:+ rest) = false) ->
  remove lit None (a +:+ rest) = a +:+ remove lit None rest.
Proof.
  induction a as [|c a IH]; intros H; [done|].
  rewrite str_app_cons, remove_no_match.
  - rewrite IH; [done|]. intros a1 x a2 ->. by apply (H (String c a1) x a2).
  - apply (H EmptyString c a). done.
Qed.

Lemma prefix_fence_cons lit c s :
  String.prefix (fence +:+ lit) (String c s) = true -> c = backtick.
Proof.
  change (fence +:+ lit)
    with (String backtick (String backtick (String backtick lit))).
  rewrite prefix_cons. by destruct (ascii_dec backtick c).
Qed.

(** Nothing starts in a stretch without a backtick. *)
Lemma remove_keep_plain lit a rest :
  ~ occurs backtick a ->
  remove (fence +:+ lit) None (a +:+ rest)
  = a +:+ remove (fence +:+ lit) None rest.
Proof.
  intros Ha. apply remove_keep. intros a1 c a2 ->.
  destruct (String.prefix _ _) eqn:Hp; [|done].
  rewrite str_app_cons in Hp.
  apply prefix_fence_cons in Hp. subst c.
  destruct Ha. apply occurs_app. right. by left.
Qed.

Lemma trimStart_length s : String.length (trimStart s) <= String.length s.
Proof.
  destruct (trimStart_suffix s) as [w Hw]. rewrite Hw at 2.
  rewrite str_length_app. lia.
Qed.

Lemma remove_fence_cases s :
  s = EmptyString \/
  (exists t, s = fence +:+ t /\
             remove_all fence s = remove_all fence (trimStart t)) \/
  (exists c s', s = String c s' /\ String.prefix fence s = false /\
                remove_all fence s = String c (remove_all fence s')).
Proof.
  destruct s as [|c s']; [by left|]. right.
  destruct (String.prefix fence (String c s')) eqn:Hp.
  - left. apply prefix_inv in Hp as [t Ht]. exists t. split; [done|].
    rewrite Ht. apply (remove_at_match backtick _ t).
  - right. exists c, s'. split; [done|]. split; [done|].
    by apply remove_no_match.
Qed.

Lemma prefix_ticks_1 c s :
  String.prefix (String backtick EmptyString) (String c s) = true
  <-> c = backtick.
Proof.
  rewrite prefix_cons, prefix_nil.
  destruct (ascii_dec backtick c); split; congruence.
Qed.

Lemma remove_fence_head1 s :
  String.prefix (String backtick EmptyString) (remove_all fence s) = true ->
  String.prefix (String backtick EmptyString) s = true.
Proof.
  destruct (remove_fence_cases s) as [->|[(t & -> & _)|(c & s' & -> & _ & ->)]];
    [done|done|].
  by rewrite !prefix_ticks_1.
Qed.

Lemma remove_fence_head2 s :
  String.prefix (String backtick (String backtick EmptyString))
    (remove_all fence s) = true ->
  String.prefix (String backtick (String backtick EmptyString)) s = true.
Proof.
  destruct (remove_fence_cases s) as [->|[(t & -> & _)|(c & s' & -> & _ & ->)]];
    [done|done|].
  rewrite !prefix_cons. destruct (ascii_dec backtick c); [|done].
  apply remove_fence_head1.
Qed.

Lemma remove_fence_head3 s :
  String.prefix fence (remove_all fence s) = false.
Proof.
  remember (String.length s) as n eqn:Hn. revert s Hn.
  induction n as [n IH] using lt_wf_ind. intros s ->.
  destruct (remove_fence_cases s) as [->|[(t & -> & ->)|(c & s' & -> & Hp & ->)]].
  - done.
  - apply (IH (String.length (trimStart t))); [|done].
    pose proof (trimStart_length t). rewrite str_length_app. cbn. lia.
  - destruct (String.prefix fence (String c (remove_all fence s'))) eqn:Hq;
      [|done].
    unfold fence in Hq, Hp. rewrite prefix_cons in Hq, Hp.
    destruct (ascii_dec backtick c); [|done].
    apply remove_fence_head2 in Hq. congruence.
Qed.

(** After the second [replace] no fence is left. *)
Lemma remove_fence_clean s : includes (remove_all fence s) fence = false.
Proof.
  remember (String.length s) as n eqn:Hn. revert s Hn.
  induction n as [n IH] using lt_wf_ind. intros s ->.
  destruct (remove_fence_cases s) as [->|[(t & -> & ->)|(c & s' & -> & Hp & Hr)]].
  - done.
  - apply (IH (String.length (trimStart t))); [|done].
    pose proof (trimStart_length t). rewrite str_length_app. cbn. lia.
  - pose proof (remove_fence_head3 (String c s')) as H3.
    rewrite Hr in *. rewrite includes_cons, H3.
    apply (IH (String.length s')); [cbn; lia|done].
Qed.

(** *** The object in the reply *)

Lemma from_brace_spec s t :
  from_brace s = Some t ->
  String.prefix "{" t = true /\
  exists pre, s = pre +:+ t /\ ~ occurs "{"%char pre.
Proof.
  revert t. induction s as [|c s IH]; intros t; [done|]. cbn [from_brace].
  destruct (Ascii.eqb_spec c "{") as [->|Hc].
  - intros [= <-]. split.
    + rewrite prefix_cons, prefix_nil. by destruct (ascii_dec "{" "{").
    + exists EmptyString. split; [done|]. intros [].
  - intros H. destruct (IH t H) as [Hp (pre & -> & Hpre)]. split; [done|].
    exists (String c pre). split; [done|]. cbn. intros [?|?]; [congruence|done].
Qed.

Lemma upto_brace_cons c s :
  upto_brace (String c s)
  = match upto_brace s with
    | Some p => Some (String c p)
    | None => if Ascii.eqb c "}" then Some (String c EmptyString) else None
    end.
Proof. done. Qed.

Lemma upto_brace_spec t m :
  upto_brace t = Some m ->
  endsWith m "}" = true /\
  exists post, t = m +:+ post /\ ~ occurs "}"%char post.
Proof.
  revert m. induction t as [|c t IH]; intros m; [done|].
  rewrite upto_brace_cons. destruct (upto_brace t) as [p|] eqn:Hu.
  - intros [= <-]. destruct (IH p eq_refl) as [He (post & -> & Hpost)].
    split; [by rewrite endsWith_cons, He, orb_true_r|]. by exists post.
  - destruct (Ascii.eqb_spec c "}") as [->|Hc]; [|done].
    intros [= <-]. split; [done|]. exists t. split; [done|].
    clear IH. induction t as [|x t IHt]; [by intros []|].
    rewrite upto_brace_cons in Hu. destruct (upto_brace t); [done|].
    destruct (Ascii.eqb_spec x "}"); [done|].
    intros [?|?]; [congruence|by apply IHt].
Qed.

Lemma match_object_spec t m :
  match_object t = Some m ->
  String.prefix "{" m = true /\ endsWith m "}" = true /\
  exists pre post, t = pre +:+ m +:+ post /\
                   ~ occurs "{"%char pre /\ ~ occurs "}"%char post.
Proof.
  unfold match_object. destruct (from_brace t) as [u|] eqn:Hf; [|done].
  intros Hu. apply from_brace_spec in Hf as [Hp (pre & -> & Hpre)].
  apply upto_brace_spec in Hu as [He (post & -> & Hpost)].
  split; [|split; [done|]].
  - destruct m as [|c m]; [done|].
    rewrite str_app_cons, prefix_cons, prefix_nil in Hp.
    by rewrite prefix_cons, prefix_nil.
  - by exists pre, post.
Qed.

Lemma from_brace_app pre t :
  ~ occurs "{"%char pre -> from_brace (pre +:+ t) = from_brace t.
Proof.
  induction pre as [|c pre IH]; [done|]. cbn [occurs]. intros Hn.
  rewrite str_app_cons. cbn [from_brace].
  destruct (Ascii.eqb_spec c "{") as [->|Hc]; [tauto|]. apply IH. tauto.
Qed.

Lemma from_brace_head t :
  String.prefix "{" t = true -> from_brace t = Some t.
Proof.
  destruct t as [|c t]; [done|]. rewrite prefix_cons.
  destruct (ascii_dec "{" c) as [<-|]; [|done]. done.
Qed.

Lemma upto_brace_none post : ~ occurs "}"%char post -> upto_brace post = None.
Proof.
  induction post as [|c post IH]; [done|]. cbn [occurs]. intros Hn.
  rewrite upto_brace_cons, IH by tauto.
  destruct (Ascii.eqb_spec c "}") as [->|]; [tauto|done].
Qed.

Lemma upto_brace_app m post :
  endsWith m "}" = true -> ~ occurs "}"%char post ->
  upto_brace (m +:+ post) = Some m.
Proof.
  intros Hm Hpost. induction m as [|c m IH]; [done|].
  rewrite str_app_cons, upto_brace_cons.
  rewrite endsWith_cons in Hm.
  destruct (endsWith m "}") eqn:He.
  - by rewrite IH.
  - rewrite orb_false_r in Hm. apply String.eqb_eq in Hm. injection Hm as -> ->.
    rewrite str_app_nil, (upto_brace_none post Hpost). done.
Qed.

(** A text that starts with an opening brace and ends with a closing one
    is its own match, whatever surrounds it without those braces. *)
Lemma match_object_found pre obj post :
  ~ occurs "{"%char pre -> String.prefix "{" obj = true ->
  endsWith obj "}" = true -> ~ occurs "}"%char post ->
  match_object (pre +:+ obj +:+ post) = Some obj.
Proof.
  intros Hpre Ho He Hpost. unfold match_object.
  rewrite from_brace_app by done.
  rewrite (from_brace_head (obj +:+ post)) by by apply prefix_app.
  by apply upto_brace_app.
Qed.

(** The text handed to [JSON.parse] holds no Markdown fence. *)
Theorem cleanResponse_no_fence gptResponse :
  includes (cleanResponse gptResponse) fence = false.
Proof.
  unfold cleanResponse.
  set (cleaned := remove_all fence _).
  assert (includes cleaned fence = false) as Hc by apply remove_fence_clean.
  destruct (match_object cleaned) as [m|] eqn:Hm; [|done].
  apply match_object_spec in Hm as (_ & _ & pre & post & Heq & _).
  destruct (includes m fence) eqn:Hi; [|done].
  rewrite Heq in Hc. rewrite includes_app_r in Hc; [done|].
  by apply includes_app_l.
Qed.

(** The text handed to [JSON.parse] runs from an opening brace to a
    closing brace, unless the cleaned reply has no closing brace after its
    first opening brace; it is then handed over whole. *)
Theorem cleanResponse_object gptResponse :
  (startsWith (cleanResponse gptResponse) "{" = true /\
   endsWith (cleanResponse gptResponse) "}" = true) \/
  match_object (cleanResponse gptResponse) = None.
Proof.
  unfold cleanResponse.
  set (cleaned := remove_all fence _).
  destruct (match_object cleaned) as [m|] eqn:Hm; [|by right].
  left. by apply match_object_spec in Hm as (? & ? & _).
Qed.

(** The Python code taken from a reply holds no Markdown fence and no
    white space around it. *)
Theorem cleanPython_clean python_code :
  includes (cleanPython python_code) fence = false /\
  trim (cleanPython python_code) = cleanPython python_code.
Proof.
  unfold cleanPython. split; [|apply trim_idem].
  destruct (includes (trim _) fence) eqn:Hi; [|done].
  apply includes_trim in Hi. by rewrite remove_fence_clean in Hi.
Qed.

(** *** A fenced object *)

Lemma endsWith_last a c :
  endsWith (a +:+ String c EmptyString) "}" = true -> c = "}"%char.
Proof.
  induction a as [|x a IH].
  - rewrite str_app_nil, endsWith_cons. cbn.
    destruct (Ascii.eqb_spec c "}"); [done|]. by rewrite orb_false_r.
  - rewrite str_app_cons, endsWith_cons.
    intros [H|H]%orb_true_iff; [|by apply IH].
    apply String.eqb_eq in H. injection H as _ H. by destruct a.
Qed.

(** No fence starts inside a text that holds none and ends with a
    closing brace, whatever follows the text. *)
Lemma object_protected lit obj rest a1 c a2 :
  includes obj fence = false -> endsWith obj "}" = true ->
  obj = a1 +:+ String c a2 ->
  String.prefix (fence +:+ lit) (String c a2 +:+ rest) = false.
Proof.
  intros Hi He ->.
  destruct (String.prefix _ _) eqn:Hp; [|done]. exfalso.
  change (fence +:+ lit)
    with (String backtick (String backtick (String backtick lit))) in Hp.
  rewrite str_app_cons, prefix_cons in Hp.
  destruct (ascii_dec backtick c) as [<-|]; [|done].
  destruct a2 as [|d a2].
  { by apply endsWith_last in He. }
  rewrite str_app_cons, prefix_cons in Hp.
  destruct (ascii_dec backtick d) as [<-|]; [|done].
  destruct a2 as [|e a2].
  { change (String backtick (String backtick EmptyString))
      with (String backtick EmptyString +:+ String backtick EmptyString) in He.
    rewrite <- str_app_assoc in He. by apply endsWith_last in He. }
  rewrite str_app_cons, prefix_cons in Hp.
  destruct (ascii_dec backtick e) as [<-|]; [|done].
  rewrite includes_app_r in Hi; [done|].
  change (String backtick (String backtick (String backtick a2)))
    with (fence +:+ a2).
  apply includes_app_l. done.
Qed.

Lemma trimStart_spaces ws c t :
  (forall x, occurs x ws -> is_space x = true) -> is_space c = false ->
  trimStart (ws +:+ String c t) = String c t.
Proof.
  intros Hws Hc. induction ws as [|x ws IH].
  - rewrite str_app_nil. cbn. by rewrite Hc.
  - rewrite str_app_cons. cbn [trimStart]. rewrite (Hws x) by by left.
    apply IH. intros y Hy. apply Hws. by right.
Qed.

Lemma occurs_trimStart c s : occurs c (trimStart s) -> occurs c s.
Proof.
  destruct (trimStart_suffix s) as [w Hw]. rewrite Hw at 2.
  rewrite occurs_app. tauto.
Qed.

Lemma occurs_trimEnd c s : occurs c (trimEnd s) -> occurs c s.
Proof.
  destruct (trimEnd_prefix s) as [w Hw]. rewrite Hw at 2.
  rewrite occurs_app. tauto.
Qed.

Lemma remove_at_fence lit t :
  remove (fence +:+ lit) None ((fence +:+ lit) +:+ t)
  = remove (fence +:+ lit) None (trimStart t).
Proof. exact (remove_at_match backtick _ t). Qed.

Lemma remove_keep_object lit obj rest :
  includes obj fence = false -> endsWith obj "}" = true ->
  remove (fence +:+ lit) None (obj +:+ rest)
  = obj +:+ remove (fence +:+ lit) None rest.
Proof.
  intros Hi He. apply remove_keep. intros a1 x a2 Heq.
  by apply (object_protected lit obj rest a1 x a2).
Qed.

Lemma fenced_core lit1 intro ws c obj mid outro :
  ~ occurs backtick intro -> ~ occurs "{"%char intro ->
  (forall x, occurs x ws -> is_space x = true) ->
  String.prefix "{" (String c obj) = true ->
  endsWith (String c obj) "}" = true ->
  includes (String c obj) fence = false ->
  ~ occurs backtick mid -> ~ occurs "}"%char mid ->
  ~ occurs backtick outro -> ~ occurs "}"%char outro ->
  match_object
    (remove_all fence
       (remove_all (fence +:+ lit1)
          (intro +:+ (fence +:+ lit1) +:+ ws +:+ String c obj +:+ mid
           +:+ fence +:+ outro)))
  = Some (String c obj).
Proof.
  intros Hi1 Hi2 Hws Ho1 Ho2 Ho3 Hm1 Hm2 Hu1 Hu2.
  assert (is_space c = false) as Hc.
  { rewrite prefix_cons in Ho1. by destruct (ascii_dec "{" c) as [<-|]. }
  unfold remove_all.
  rewrite (remove_keep_plain lit1 intro) by done.
  rewrite remove_at_fence.
  rewrite (str_app_cons c obj), trimStart_spaces by done.
  rewrite <- (str_app_cons c obj).
  rewrite (remove_keep_object lit1 (String c obj)) by done.
  rewrite (remove_keep_plain lit1 mid) by done.
  set (T1 := remove _ None (fence +:+ outro)).
  rewrite (remove_keep_plain EmptyString intro _ Hi1).
  rewrite (remove_keep_object EmptyString (String c obj) _ Ho3 Ho2).
  rewrite (remove_keep_plain EmptyString mid _ Hm1).
  apply match_object_found; try done.
  rewrite occurs_app. intros [H|H]; [done|].
  apply occurs_remove in H. unfold T1 in H. apply occurs_remove in H.
  apply occurs_app in H as [H|H]; [|done].
  cbn in H. unfold backtick in H. destruct H as [H|[H|[H|[]]]]; discriminate.
Qed.

Lemma trimStart_app_fence a lit rest :
  trimStart (a +:+ (fence +:+ lit) +:+ rest)
  = trimStart a +:+ (fence +:+ lit) +:+ rest.
Proof. exact (trimStart_app a backtick _ eq_refl). Qed.

Lemma trimEnd_cons_keep c s :
  is_space c = false -> trimEnd (String c s) = String c (trimEnd s).
Proof.
  intros Hc. rewrite trimEnd_cons, Hc.
  by destruct (String.eqb_spec (trimEnd s) EmptyString) as [->|].
Qed.

Lemma trimEnd_app_fence a outro :
  trimEnd (a +:+ fence +:+ outro) = a +:+ fence +:+ trimEnd outro.
Proof.
  assert (trimEnd (fence +:+ outro) = fence +:+ trimEnd outro) as Hf.
  { change (fence +:+ outro)
      with (String backtick (String backtick (String backtick outro))).
    by rewrite !trimEnd_cons_keep. }
  induction a as [|x a IH]; [by rewrite !str_app_nil|].
  rewrite !str_app_cons, trimEnd_cons, IH.
  destruct (String.eqb_spec (a +:+ fence +:+ trimEnd outro) EmptyString)
    as [He|]; [|done].
  by destruct a.
Qed.

(** A reply that wraps one object in a [json] fence, with prose around it
    that has neither backticks nor the braces that would extend the match,
    is cleaned to the object itself. *)
Theorem cleanResponse_fenced intro ws obj mid outro :
  ~ occurs backtick intro -> ~ occurs "{"%char intro ->
  (forall x, occurs x ws -> is_space x = true) ->
  startsWith obj "{" = true -> endsWith obj "}" = true ->
  includes obj fence = false ->
  ~ occurs backtick mid -> ~ occurs "}"%char mid ->
  ~ occurs backtick outro -> ~ occurs "}"%char outro ->
  cleanResponse
    (intro +:+ (fence +:+ "json") +:+ ws +:+ obj +:+ mid +:+ fence +:+ outro)
  = obj.
Proof.
  intros Hi1 Hi2 Hws Ho1 Ho2 Ho3 Hm1 Hm2 Hu1 Hu2.
  unfold startsWith in Ho1. destruct obj as [|c obj]; [done|].
  assert (trim (intro +:+ (fence +:+ "json") +:+ ws +:+ String c obj +:+ mid
                +:+ fence +:+ outro)
          = trimStart intro +:+ (fence +:+ "json") +:+ ws +:+ String c obj
            +:+ mid +:+ fence +:+ trimEnd outro) as Ht.
  { unfold trim. rewrite trimStart_app_fence.
    pose proof (trimEnd_app_fence
      (trimStart intro +:+ (fence +:+ "json") +:+ ws +:+ String c obj +:+ mid)
      outro) as H.
    by rewrite !str_app_assoc in H. }
  unfold cleanResponse. rewrite Ht.
  rewrite fenced_core; try done.
  - intros H. by apply Hi1, occurs_trimStart.
  - intros H. by apply Hi2, occurs_trimStart.
  - intros H. by apply Hu1, occurs_trimEnd.
  - intros H. by apply Hu2, occurs_trimEnd.
Qed.

Lemma cleanResponse_fenced_witness :
  let intro := "Here is the analysis:" +:+ nl in
  let ws := nl in
  let obj := "{chart: {kind: 1}}" in
  let mid := nl in
  let outro := nl +:+ "Let me know." in
  (~ occurs backtick intro /\ ~ occurs "{"%char intro /\
   (forall x, occurs x ws -> is_space x = true) /\
   startsWith obj "{" = true /\ endsWith obj "}" = true /\
   includes obj fence = false /\
   ~ occurs backtick mid /\ ~ occurs "}"%char mid /\
   ~ occurs backtick outro /\ ~ occurs "}"%char outro) /\
  cleanResponse
    (intro +:+ (fence +:+ "json") +:+ ws +:+ obj +:+ mid +:+ fence +:+ outro)
  = obj.
Proof.
  intros intro ws obj mid outro.
  assert (~ occurs backtick intro) as H1 by (vm_compute; intuition discriminate).
  assert (~ occurs "{"%char intro) as H2 by (vm_compute; intuition discriminate).
  assert (forall x, occurs x ws -> is_space x = true) as H3
    by (intros x Hx; vm_compute in Hx; destruct Hx as [->|[]]; reflexivity).
  assert (startsWith obj "{" = true) as H4 by reflexivity.
  assert (endsWith obj "}" = true) as H5 by reflexivity.
  assert (includes obj fence = false) as H6 by reflexivity.
  assert (~ occurs backtick mid) as H7 by (vm_compute; intuition discriminate).
  assert (~ occurs "}"%char mid) as H8 by (vm_compute; intuition discriminate).
  assert (~ occurs backtick outro) as H9 by (vm_compute; intuition discriminate).
  assert (~ occurs "}"%char outro) as H10 by (vm_compute; intuition discriminate).
  split; [by split_and!|].
  exact (cleanResponse_fenced intro ws obj mid outro H1 H2 H3 H4 H5 H6 H7 H8 H9 H10).
Defined.

End cleaning.

(** ** Identifiers *)

Section identifiers.
Import Js JobId Ident.

Lemma word_app a b : word (a +:+ b) = word a && word b.
Proof.
  induction a as [|c a IH]; [done|].
  rewrite str_app_cons. cbn [word]. by rewrite IH, andb_assoc.
Qed.

Lemma word_pretty_N_go x s : word s = true -> word (pretty_N_go x s) = true.
Proof.
  revert s. induction (N.lt_wf_0 x) as [x _ IH]; intros s Hs.
  destruct (decide (x = 0)%N) as [->|Hx].
  - by rewrite pretty_N_go_0.
  - rewrite pretty_N_go_step by lia.
    apply IH; [apply N.div_lt; lia|].
    cbn [word]. rewrite Hs, andb_true_r.
    unfold pretty_N_char. by repeat case_match.
Qed.

Lemma word_pretty (x : N) : word (pretty x) = true.
Proof.
  unfold pretty, pretty_N. case_decide; [done|].
  by apply word_pretty_N_go.
Qed.

Lemma word_digit36 d : word_char (digit36 d) = true.
Proof.
  unfold digit36. pose proof (Nat.mod_upper_bound d 36) as H.
  generalize dependent (d mod 36). intros n H.
  do 36 (destruct n as [|n]; [reflexivity|]). lia.
Qed.

Lemma word_digits36 ds : word (digits36 ds) = true.
Proof.
  induction ds as [|d ds IH]; [done|].
  cbn [digits36 word]. by rewrite word_digit36, IH.
Qed.

Lemma word_substring n m s :
  word s = true -> word (String.substring n m s) = true.
Proof.
  revert n m. induction s as [|c s IH]; intros [|n] [|m] H; try done.
  - cbn in *. apply andb_true_iff in H as [-> H]. by apply (IH 0 m).
  - cbn in *. apply andb_true_iff in H as [_ H]. by apply IH.
  - cbn in *. apply andb_true_iff in H as [_ H]. by apply IH.
Qed.

Lemma length_substring n m s : String.length (String.substring n m s) <= m.
Proof.
  revert n m. induction s as [|c s IH]; intros [|n] [|m]; cbn; try lia.
  - specialize (IH 0 m). lia.
  - apply IH.
  - apply IH.
Qed.

Lemma word_suffix ds : word (suffix ds) = true.
Proof.
  unfold suffix, substr, toString36. destruct ds as [|d ds]; [done|].
  change ("0." +:+ digits36 (d :: ds))
    with (String "0" (String "." (digits36 (d :: ds)))).
  change (String.substring 2 9 (String "0" (String "." (digits36 (d :: ds)))))
    with (String.substring 0 9 (digits36 (d :: ds))).
  apply word_substring, word_digits36.
Qed.

Lemma word_jobId clock ds : word (jobId clock ds) = true.
Proof. unfold jobId. by rewrite !word_app, word_pretty, word_suffix. Qed.

Lemma word_occurs s c : word s = true -> occurs c s -> word_char c = true.
Proof.
  induction s as [|x s IH]; [done|]. cbn [word occurs].
  intros [Hx Hs]%andb_true_iff [->|Hc]; [done|by apply IH].
Qed.

(** A job identifier is made of lower-case letters, digits and
    underscores only; its random part has at most nine characters. *)
Theorem jobId_word clock ds :
  word (jobId clock ds) = true /\ String.length (suffix ds) <= 9.
Proof. split; [apply word_jobId|apply length_substring]. Qed.

(** The job directory that is spliced between double quotes into the
    shell command, and into the path of the dataset in the script, has
    no character that the directory of the server does not have, but the
    slash and the lower-case letters, digits and underscores of the
    identifier: the identifier brings no quote, dollar, backtick,
    backslash, blank or dot. *)
Theorem jobDir_chars tempDir clock ds c :
  occurs c (Handler.path_join tempDir (jobId clock ds)) ->
  occurs c tempDir \/ c = "/"%char \/ word_char c = true.
Proof.
  unfold Handler.path_join. rewrite !occurs_app.
  intros [H|[H|H]]; [by left| |].
  - cbn in H. destruct H as [->|[]]. right. by left.
  - right. right. apply (word_occurs (jobId clock ds)); [apply word_jobId|done].
Qed.

Lemma jobDir_chars_witness :
  occurs "7"%char (Handler.path_join "/srv/app/temp" (jobId 1700000000000 [7; 35])) /\
  (occurs "7"%char "/srv/app/temp" \/ "7"%char = "/"%char \/
   word_char "7" = true).
Proof.
  assert (occurs "7"%char
            (Handler.path_join "/srv/app/temp" (jobId 1700000000000 [7; 35])))
    as H by (vm_compute; tauto).
  split; [exact H|].
  exact (jobDir_chars "/srv/app/temp" 1700000000000 [7; 35] "7"%char H).
Defined.

End identifiers.

(** ** Live sync *)

Section live_sync.
Import Js JobId LiveSync.

Lemma interval_or_default_truthy x : falsy (interval_or_default x) = false.
Proof.
  unfold interval_or_default. destruct x as [n|]; [|reflexivity].
  destruct (falsy n) eqn:Hn; [reflexivity|done].
Qed.

Lemma setup_cases t_id t_last t_next ds b configs :
  snd (setup t_id t_last t_next ds b configs) = configs \/
  exists c, falsy (refreshInterval c) = false /\
    snd (setup t_id t_last t_next ds b configs)
    = <[syncId_of t_id ds := c]> configs.
Proof.
  unfold setup. case_match; [by left|]. right. eexists. split; [|done].
  cbn [refreshInterval]. apply interval_or_default_truthy.
Qed.

Lemma fetch_cases t_stored t_answer b configs :
  snd (fetch t_stored t_answer b configs) = configs \/
  exists k c, configs !! k = Some c /\
    snd (fetch t_stored t_answer b configs) = <[k := touch t_stored c]> configs.
Proof.
  unfold fetch. case_match; [by left|]. cbn.
  case_match; [|by left]. case_match eqn:Hc; [|by left].
  right. by eexists _, _.
Qed.

(** A sync that was set up is found by the status route under the
    identifier the setup returned, with the sheet and range of the
    request, the interval the setup stored and, as the time of the last
    sync, the second clock reading of the setup.  The status route
    computes the next sync from that stored time; the setup announced the
    one computed from its third reading, which is the same when the clock
    has not moved between the two. *)
Theorem setup_then_status t_id t_last t_next ds b configs :
  truthy (body_sheetId b) = true -> truthy (body_range b) = true ->
  exists configs',
    setup t_id t_last t_next ds b configs
    = (SetupDone (syncId_of t_id ds) "Live sync configured successfully"
         (text (body_sheetId b)) (text (body_range b))
         (interval_or_default (body_refreshInterval b))
         (date_after t_next (interval_or_default (body_refreshInterval b))),
       configs') /\
    status (syncId_of t_id ds) configs'
    = (Status (syncId_of t_id ds) true t_last
         (date_after t_last (interval_or_default (body_refreshInterval b)))
         (interval_or_default (body_refreshInterval b))
         (text (body_sheetId b)) (text (body_range b)),
       configs').
Proof.
  intros H1 H2. unfold setup. rewrite H1, H2. cbn [negb orb].
  eexists. split; [reflexivity|].
  unfold status. by rewrite lookup_insert_eq.
Qed.

Lemma setup_then_status_witness :
  let b := Body (Some "sheet1") (Some "A1:D5")
             (Some (PrimFloat.div PrimFloat.one PrimFloat.two)) None in
  (truthy (body_sheetId b) = true /\ truthy (body_range b) = true) /\
  exists configs',
    setup 1700000000000 1700000000001 1700000000002 [7; 35; 0] b ∅
    = (SetupDone (syncId_of 1700000000000 [7; 35; 0])
         "Live sync configured successfully" "sheet1" "A1:D5"
         (PrimFloat.div PrimFloat.one PrimFloat.two)
         (Some 1700000000002%Z),
       configs') /\
    status (syncId_of 1700000000000 [7; 35; 0]) configs'
    = (Status (syncId_of 1700000000000 [7; 35; 0]) true 1700000000001
         (Some 1700000000001%Z)
         (PrimFloat.div PrimFloat.one PrimFloat.two) "sheet1" "A1:D5",
       configs').
Proof.
  intros b. split; [split; reflexivity|].
  exact (setup_then_status 1700000000000 1700000000001 1700000000002
           [7; 35; 0] b ∅ eq_refl eq_refl).
Defined.

(** Whatever requests the three routes have served since the server
    started, the refresh interval of every stored sync is a truthy
    number: never zero, of either sign, and never [NaN]. *)
Theorem refreshInterval_never_zero rs :
  map_Forall (fun _ c => falsy (refreshInterval c) = false) (after rs ∅).
Proof.
  unfold after.
  assert (forall configs,
    map_Forall (fun _ c => falsy (refreshInterval c) = false) configs ->
    map_Forall (fun _ c => falsy (refreshInterval c) = false)
      (foldl (fun m r => snd (serve r m)) configs rs)) as H.
  { induction rs as [|r rs IH]; intros configs Hc; [done|].
    cbn [foldl]. apply IH.
    destruct r as [t_id t_last t_next ds b|t_stored t_answer b|syncId];
      cbn [serve].
    - destruct (setup_cases t_id t_last t_next ds b configs)
        as [->|(c & Hz & ->)]; [done|].
      by apply map_Forall_insert_2.
    - destruct (fetch_cases t_stored t_answer b configs)
        as [->|(k & c & Hk & ->)]; [done|].
      apply map_Forall_insert_2; [|done]. by apply (Hc k c).
    - unfold status. by case_match. }
  apply H, map_Forall_empty.
Qed.

(** Fetching sheet data neither registers nor forgets a sync, and changes
    nothing of a stored sync but the time of its last sync. *)
Theorem fetch_keeps_configs t_stored t_answer b configs k :
  match (snd (fetch t_stored t_answer b configs)) !! k, configs !! k with
  | Some c', Some c =>
      sheetId c' = sheetId c /\ range c' = range c /\
      refreshInterval c' = refreshInterval c /\
      (lastSync c' = lastSync c \/ lastSync c' = t_stored)
  | None, None => True
  | _, _ => False
  end.
Proof.
  destruct (fetch_cases t_stored t_answer b configs)
    as [->|(k' & c & Hk & ->)].
  - destruct (configs !! k); tauto.
  - destruct (decide (k' = k)) as [->|Hne].
    + rewrite lookup_insert_eq, Hk. cbn. tauto.
    + rewrite lookup_insert_ne by done. destruct (configs !! k); tauto.
Qed.

(** No route removes a sync: once registered, an identifier is known to
    the status route after any further requests, which answers with the
    status of that identifier and never that the sync is not found. *)
Theorem sync_never_forgotten rs configs k :
  is_Some (configs !! k) ->
  exists lastSync nextSync interval sheet rng,
    fst (status k (after rs configs))
    = Status k true lastSync nextSync interval sheet rng.
Proof.
  intros Hk.
  assert (is_Some (after rs configs !! k)) as [c Hc].
  { unfold after. revert configs Hk.
    induction rs as [|r rs IH]; intros configs Hk; [done|].
    cbn [foldl]. apply IH.
    destruct r as [t_id t_last t_next ds b|t_stored t_answer b|syncId];
      cbn [serve].
    - destruct (setup_cases t_id t_last t_next ds b configs)
        as [->|(c & Hz & ->)]; [done|].
      rewrite lookup_insert_is_Some.
      destruct (decide (syncId_of t_id ds = k)); auto.
    - destruct (fetch_cases t_stored t_answer b configs)
        as [->|(k' & c & Hk' & ->)]; [done|].
      rewrite lookup_insert_is_Some. destruct (decide (k' = k)); auto.
    - unfold status. by case_match. }
  unfold status. rewrite Hc. by eexists _, _, _, _, _.
Qed.

Lemma sync_never_forgotten_witness :
  let b := Body (Some "sheet1") (Some "A1:D5") None None in
  let configs := snd (setup 5 5 5 [1] b ∅) in
  let rs := [Fetch 6 6 (Body (Some "s") (Some "r") None (Some (syncId_of 5 [1])));
             Setup 7 7 7 [2] b; GetStatus "sync_0_"] in
  is_Some (configs !! syncId_of 5 [1]) /\
  exists lastSync nextSync interval sheet rng,
    fst (status (syncId_of 5 [1]) (after rs configs))
    = Status (syncId_of 5 [1]) true lastSync nextSync interval sheet rng.
Proof.
  intros b configs rs.
  assert (is_Some (configs !! syncId_of 5 [1])) as H.
  { refine (bool_decide_unpack _ _). vm_compute. exact I. }
  split; [exact H|].
  exact (sync_never_forgotten rs configs (syncId_of 5 [1]) H).
Defined.

(** Sync identifiers have the characters of job identifiers, and two
    setups get the same one exactly when they read the same millisecond and
    draw the same first nine digits; the later setup then replaces the
    earlier sync. *)
Theorem syncId_equal_iff clock1 ds1 clock2 ds2 :
  Ident.word (syncId_of clock1 ds1) = true /\
  (syncId_of clock1 ds1 = syncId_of clock2 ds2
   <-> clock1 = clock2 /\ suffix ds1 = suffix ds2).
Proof.
  split.
  { unfold syncId_of. by rewrite !word_app, word_pretty, word_suffix. }
  split.
  - unfold syncId_of. intros H.
    apply (inj (String.app "sync_")) in H.
    apply split_at_separator in H; auto using pretty_N_no_underscore.
    destruct H as [H1 H2]. split; [|done]. by apply (inj pretty).
  - intros [-> H]. unfold syncId_of. by rewrite H.
Qed.

End live_sync.

(** ** The panel: local data cleaning *)

Section panel_cleaning.
Import Js Text Panel.

Lemma occurs_join c sep ps :
  occurs c (join sep ps) ->
  occurs c sep \/ Exists (fun p => occurs c p) ps.
Proof.
  induction ps as [|p ps IH]; [done|]. destruct ps as [|q ps].
  - cbn. intros H. right. by left.
  - rewrite join_cons by done. rewrite !occurs_app. intros [H|[H|H]].
    + right. by left.
    + by left.
    + destruct (IH H) as [?|?]; [by left|]. right. by right.
Qed.

Lemma length_pad k cells : List.length (pad k cells) = List.length cells + k.
Proof.
  revert cells. induction k as [|k IH]; intros cells; cbn [pad]; [lia|].
  rewrite IH, length_app. cbn. lia.
Qed.

Lemma Forall_pad (P : string -> Prop) k cells :
  P EmptyString -> Forall P cells -> Forall P (pad k cells).
Proof.
  intros H0. revert cells. induction k as [|k IH]; intros cells Hc; [done|].
  cbn [pad]. apply IH, Forall_app. split; [done|]. by constructor.
Qed.

Lemma length_fit w cells : List.length (fit w cells) = w.
Proof. unfold fit. rewrite length_take, length_pad. lia. Qed.

Lemma Forall_fit (P : string -> Prop) w cells :
  P EmptyString -> Forall P cells -> Forall P (fit w cells).
Proof. intros H0 Hc. unfold fit. by apply Forall_take, Forall_pad. Qed.

Lemma blank_fill cell : blank (fill cell) = false.
Proof.
  unfold fill. destruct (blank cell) eqn:Hb; [done|].
  unfold blank in *. by rewrite trim_idem.
Qed.

Lemma filter_blank_fill cells : List.filter blank (map fill cells) = [].
Proof.
  induction cells as [|c cells IH]; [done|].
  cbn [map List.filter]. by rewrite blank_fill.
Qed.

Lemma occurs_fill c cell : occurs c (fill cell) -> occurs c cell \/ occurs c "N/A".
Proof.
  unfold fill. destruct (blank cell); [by right|].
  intros H. left. by apply occurs_trim.
Qed.

Lemma clean_line_ok w line l :
  1 <= w -> ~ occurs lf line -> clean_line w line = Some l -> row_ok w l.
Proof.
  intros Hw Hlf. unfold clean_line.
  destruct (String.eqb _ _); [done|]. intros [= <-].
  set (cells := fit w (split comma (trim line))).
  assert (Forall (fun p => ~ occurs comma p /\ ~ occurs lf p) cells) as Hcells.
  { apply Forall_fit; [by split; intros []|].
    apply Forall_forall. intros p Hp. split.
    - pose proof (split_no_sep comma (trim line)) as H.
      rewrite Forall_forall in H. by apply H.
    - intros H. apply Hlf, occurs_trim.
      apply (split_occurs comma _ p); [by apply list_elem_of_In|done]. }
  assert (split comma (join "," (map fill cells)) = map fill cells) as Hs.
  { apply (split_join comma).
    - intros H. apply (f_equal List.length) in H.
      rewrite length_map in H. unfold cells in H. rewrite length_fit in H.
      cbn in H. lia.
    - apply Forall_map. eapply Forall_impl; [exact Hcells|].
      intros p [Hp _] [H|H]%occurs_fill; [done|].
      cbn in H. unfold comma in H. intuition discriminate. }
  split_and!.
  - intros [H|H]%occurs_join.
    { cbn in H. unfold lf in H. intuition discriminate. }
    apply Exists_exists in H as (p & Hp & H).
    apply list_elem_of_fmap in Hp as (q & -> & Hq).
    rewrite Forall_forall in Hcells. destruct (Hcells q Hq) as [_ Hn].
    apply occurs_fill in H as [H|H]; [done|].
    cbn in H. unfold lf in H. intuition discriminate.
  - rewrite Hs, length_map. apply length_fit.
  - rewrite Hs. apply filter_blank_fill.
Qed.

Lemma clean_lines_ok w lines :
  1 <= w -> Forall (fun p => ~ occurs lf p) lines ->
  Forall (row_ok w) (clean_lines w lines).
Proof.
  intros Hw. induction lines as [|line lines IH]; [constructor|].
  intros [H1 H2]%Forall_cons. cbn [clean_lines].
  destruct (clean_line w line) as [l|] eqn:Hl; [|by apply IH].
  constructor; [|by apply IH]. by eapply clean_line_ok.
Qed.

Lemma tally_rows_ok w rows t :
  Forall (row_ok w) rows -> hasEmptyRows t = false -> emptyCells t = 0 ->
  dirty (foldl (tally_line w) t rows) = false.
Proof.
  intros H. revert t. induction H as [|l rows (_ & Hl & Hb) _ IH]; intros t H1 H2.
  - unfold dirty. cbn. by rewrite H1, H2.
  - cbn [foldl]. apply IH; cbn.
    + by rewrite H1, Hl, Nat.eqb_refl.
    + rewrite H2, Hb. done.
Qed.

(** The dataset the local cleaning keeps needs no cleaning: assessed
    again it has no empty cell and no row of another length than the
    header, so a second cleaning changes nothing and reports no action. *)
Theorem cleanedData_clean csvData :
  dirty (assess (cleanedData csvData)) = false /\
  cleanedData (cleanedData csvData) = cleanedData csvData /\
  cleaningActions (cleanedData csvData) = [].
Proof.
  assert (dirty (assess (cleanedData csvData)) = false) as H.
  { unfold cleanedData. destruct (dirty (assess csvData)) eqn:Hd; [|done].
    pose proof (split_nonempty lf csvData) as Hne.
    pose proof (split_no_sep lf csvData) as Hlf.
    destruct (split lf csvData) as [|h lines]; [done|]. cbn [hd tl].
    apply Forall_cons in Hlf as [Hh Hlines].
    set (w := List.length (split comma h)).
    assert (1 <= w) as Hw.
    { unfold w. pose proof (split_nonempty comma h).
      destruct (split comma h); [done|]. cbn. lia. }
    pose proof (clean_lines_ok w lines Hw Hlines) as Hok.
    unfold assess. change nl with (String lf EmptyString).
    rewrite split_join; [|done|].
    - cbn [hd tl]. by apply tally_rows_ok.
    - constructor; [done|]. eapply Forall_impl; [exact Hok|]. by intros l [? _]. }
  split_and!; [done| |].
  - unfold cleanedData at 1. by rewrite H.
  - unfold cleaningActions. by rewrite H.
Qed.

(** A dataset that ends with a line feed is never found clean: the empty
    text after the last line feed is assessed as a row with one empty
    cell, and the report says that empty cells were filled. *)
Theorem trailing_newline_dirty csvData :
  1 <= emptyCells (assess (csvData +:+ nl)) /\
  dirty (assess (csvData +:+ nl)) = true /\
  exists rest,
    cleaningActions (csvData +:+ nl)
    = ("Filled " +:+ pretty (emptyCells (assess (csvData +:+ nl)))
       +:+ " empty cells with 'N/A'") :: rest.
Proof.
  assert (1 <= emptyCells (assess (csvData +:+ nl))) as H.
  { unfold assess. change nl with (String lf EmptyString).
    rewrite split_snoc_sep.
    pose proof (split_nonempty lf csvData) as Hne.
    destruct (split lf csvData) as [|h lines]; [done|].
    cbn [app hd tl]. rewrite foldl_app. cbn. lia. }
  assert (Nat.ltb 0 (emptyCells (assess (csvData +:+ nl))) = true) as Hlt
    by by apply Nat.ltb_lt.
  split_and!; [done| |].
  - unfold dirty. by rewrite Hlt.
  - unfold cleaningActions, dirty. rewrite Hlt. cbn [orb app]. by eexists.
Qed.

(** The report counts the lines after the first as rows, so the line
    feed that ends the last line of a file adds a row to the count. *)
Theorem dataRows_trailing_newline csvData :
  dataRows (csvData +:+ nl) = S (dataRows csvData).
Proof.
  unfold dataRows. change nl with (String lf EmptyString).
  rewrite split_snoc_sep, length_app.
  pose proof (split_nonempty lf csvData) as Hne.
  destruct (split lf csvData); [done|]. cbn. lia.
Qed.

End panel_cleaning.

(** ** The panel: bold text in chat messages *)

Section panel_markdown.
Import Js Text Panel.

Lemma join_nil_cons p ps :
  join EmptyString (p :: ps) = p +:+ join EmptyString ps.
Proof. destruct ps; [by rewrite str_app_nil_r|by rewrite join_cons]. Qed.

Lemma skip_nil n : skip n EmptyString = EmptyString.
Proof. by destruct n. Qed.

Lemma substring_skip n s : String.substring 0 n s +:+ skip n s = s.
Proof.
  revert n. induction s as [|c s IH]; intros [|n]; try done.
  cbn [String.substring skip]. by rewrite str_app_cons, IH.
Qed.

Lemma substring_app x y : String.substring 0 (String.length x) (x +:+ y) = x.
Proof.
  induction x as [|c x IH]; [by destruct y|].
  rewrite str_app_cons. cbn [String.length String.substring]. by rewrite IH.
Qed.

Lemma skip_app x y : skip (String.length x) (x +:+ y) = y.
Proof. induction x as [|c x IH]; [done|]. by rewrite str_app_cons. Qed.

Lemma bold_at_pos s len : bold_at s = Some len -> 1 <= len.
Proof.
  unfold bold_at. destruct s as [|a [|b t]]; try done.
  repeat case_match; try done. intros [= <-]. lia.
Qed.

Lemma bold_at_nonstar c s : c <> star -> bold_at (String c s) = None.
Proof.
  intros Hc. destruct s as [|b t]; [done|]. cbn [bold_at].
  by destruct (Ascii.eqb_spec c star).
Qed.

Lemma run_app a s : ~ occurs star a -> run (a +:+ s) = String.length a + run s.
Proof.
  induction a as [|c a IH]; [done|]. cbn [occurs]. intros H.
  rewrite str_app_cons. cbn [run String.length].
  destruct (Ascii.eqb_spec c star) as [->|_]; [tauto|].
  rewrite IH by tauto. done.
Qed.

Lemma split_go_plain a s acc :
  ~ occurs star a -> split_go (a +:+ s) 0 acc = split_go s 0 (acc +:+ a).
Proof.
  revert acc. induction a as [|c a IH]; intros acc.
  - by rewrite str_app_nil, str_app_nil_r.
  - cbn [occurs]. intros H. rewrite str_app_cons. cbn [split_go].
    rewrite bold_at_nonstar by (intros ->; tauto).
    rewrite IH by tauto. by rewrite str_app_assoc.
Qed.

Lemma split_go_skip x rest acc :
  split_go (x +:+ rest) (String.length x) acc = split_go rest 0 acc.
Proof. induction x as [|c x IH]; [done|]. by rewrite str_app_cons. Qed.

Lemma split_go_join s todo acc :
  join EmptyString (split_go s todo acc) = acc +:+ skip todo s.
Proof.
  revert todo acc. induction s as [|c s IH]; intros todo acc.
  - cbn [split_go join]. by rewrite skip_nil, str_app_nil_r.
  - destruct todo as [|k]; [|apply IH].
    cbn [split_go]. destruct (bold_at (String c s)) as [len|] eqn:Hb.
    + apply bold_at_pos in Hb. destruct len as [|m]; [lia|].
      rewrite !join_nil_cons, IH, str_app_nil.
      replace (S m - 1) with m by lia.
      cbn [String.substring]. rewrite str_app_cons, substring_skip. done.
    + rewrite IH. cbn [skip]. by rewrite str_app_assoc.
Qed.

(** Splitting a message at its bold passages loses nothing: the parts,
    put together again, are the message. *)
Theorem split_bold_join text : join EmptyString (split_bold text) = text.
Proof. unfold split_bold. by rewrite split_go_join. Qed.

(** A message without an asterisk is shown as it is, in one plain piece. *)
Theorem parseMarkdown_plain text :
  ~ occurs star text -> parseMarkdown text = [Plain text].
Proof.
  intros H. unfold parseMarkdown, split_bold.
  rewrite <- (str_app_nil_r text) at 1.
  rewrite split_go_plain by done. cbn [split_go map]. rewrite str_app_nil.
  unfold render, startsWith. destruct text as [|c t]; [done|].
  cbn [occurs] in H. change "**" with (String star (String star EmptyString)).
  rewrite prefix_cons. destruct (ascii_dec star c) as [<-|]; [tauto|done].
Qed.

Lemma parseMarkdown_plain_witness :
  ~ occurs star "Analyzing data quality..." /\
  parseMarkdown "Analyzing data quality..."
  = [Plain "Analyzing data quality..."].
Proof.
  assert (~ occurs star "Analyzing data quality...") as H
    by (vm_compute; intuition discriminate).
  split; [exact H|]. exact (parseMarkdown_plain _ H).
Defined.

Lemma bold_at_match b rest :
  ~ occurs star b -> b <> EmptyString ->
  bold_at ("**" +:+ b +:+ "**" +:+ rest) = Some (String.length b + 4).
Proof.
  intros Hb Hne.
  change ("**" +:+ b +:+ "**" +:+ rest)
    with (String star (String star (b +:+ "**" +:+ rest))).
  cbn [bold_at]. rewrite Ascii.eqb_refl. cbn [andb].
  rewrite run_app by done.
  change (run ("**" +:+ rest)) with 0. rewrite Nat.add_0_r.
  destruct (Nat.eqb_spec (String.length b) 0) as [H0|_].
  { by destruct b. }
  rewrite skip_app.
  by change (String.prefix "**" ("**" +:+ rest)) with (String.prefix EmptyString rest);
    rewrite prefix_nil.
Qed.

Lemma split_go_at_match c s len acc :
  bold_at (String c s) = Some len ->
  split_go (String c s) 0 acc
  = acc :: String.substring 0 len (String c s)
        :: split_go s (len - 1) EmptyString.
Proof.
  intros H.
  transitivity
    (match bold_at (String c s) with
     | Some len =>
         acc :: String.substring 0 len (String c s)
             :: split_go s (len - 1) EmptyString
     | None => split_go s 0 (acc +:+ String c EmptyString)
     end); [reflexivity|by rewrite H].
Qed.

(** A passage between double asterisks, not empty and free of asterisks,
    after a text free of asterisks: the text is shown plain, the passage
    bold without its asterisks, and the rest is parsed on its own. *)
Theorem parseMarkdown_bold a b rest :
  ~ occurs star a -> ~ occurs star b -> b <> EmptyString ->
  parseMarkdown (a +:+ "**" +:+ b +:+ "**" +:+ rest)
  = Plain a :: Strong b :: parseMarkdown rest.
Proof.
  intros Ha Hb Hne. unfold parseMarkdown, split_bold.
  rewrite split_go_plain, str_app_nil by done.
  pose proof (bold_at_match b rest Hb Hne) as Hm.
  assert (split_go ("**" +:+ b +:+ "**" +:+ rest) 0 a
          = a :: ("**" +:+ b +:+ "**") :: split_go rest 0 EmptyString) as ->.
  { change ("**" +:+ b +:+ "**" +:+ rest)
      with (String star (String star (b +:+ "**" +:+ rest))) in *.
    rewrite (split_go_at_match _ _ _ a Hm). f_equal. f_equal.
    - change (String star (String star (b +:+ "**" +:+ rest)))
        with ("**" +:+ b +:+ "**" +:+ rest).
      replace ("**" +:+ b +:+ "**" +:+ rest)
        with (("**" +:+ b +:+ "**") +:+ rest) by by rewrite !str_app_assoc.
      replace (String.length b + 4) with (String.length ("**" +:+ b +:+ "**"))
        by (rewrite !str_length_app; cbn; lia).
      apply substring_app.
    - replace (String star (b +:+ "**" +:+ rest))
        with (String star (b +:+ "**") +:+ rest)
        by by rewrite str_app_cons, str_app_assoc.
      replace (String.length b + 4 - 1)
        with (String.length (String star (b +:+ "**")))
        by (cbn [String.length]; rewrite str_length_app; cbn; lia).
      exact (split_go_skip (String star (b +:+ "**")) rest EmptyString). }
  cbn [map]. f_equal; [|f_equal].
  - unfold render, startsWith. destruct a as [|c t]; [done|].
    cbn [occurs] in Ha. change "**" with (String star (String star EmptyString)).
    rewrite prefix_cons. destruct (ascii_dec star c) as [<-|]; [tauto|done].
  - unfold render, startsWith.
    assert (String.prefix "**" ("**" +:+ b +:+ "**") = true) as ->
      by apply prefix_app_self.
    assert (endsWith ("**" +:+ b +:+ "**") "**" = true) as ->.
    { replace ("**" +:+ b +:+ "**") with (("**" +:+ b) +:+ "**")
        by by rewrite str_app_assoc.
      apply endsWith_app. }
    cbn [andb]. f_equal. unfold slice_2_2.
    replace (String.length ("**" +:+ b +:+ "**") - 2 - 2) with (String.length b)
      by (rewrite !str_length_app; cbn; lia).
    change (String.substring 2 (String.length b) ("**" +:+ b +:+ "**"))
      with (String.substring 0 (String.length b) (b +:+ "**")).
    apply substring_app.
Qed.

Lemma parseMarkdown_bold_witness :
  (~ occurs star "Rows: " /\ ~ occurs star "12" /\ "12" <> EmptyString) /\
  parseMarkdown ("Rows: " +:+ "**" +:+ "12" +:+ "**" +:+ " in all")
  = Plain "Rows: " :: Strong "12" :: parseMarkdown " in all".
Proof.
  assert (~ occurs star "Rows: ") as Ha by (vm_compute; intuition discriminate).
  assert (~ occurs star "12") as Hb by (vm_compute; intuition discriminate).
  assert ("12" <> EmptyString) as Hne by discriminate.
  split; [by split_and!|].
  exact (parseMarkdown_bold "Rows: " "12" " in all" Ha Hb Hne).
Defined.

End panel_markdown.

(** ** The panel: indicators, quoting and chat routing *)

Section panel_chat.
Import Js Text Panel.

(** The typing indicator shows no dot, one, two or three, and is back
    where it was after four ticks. *)
Theorem dots_cycle n :
  dots_after (n + 4) = dots_after n /\ String.length (dots_after n) <= 3.
Proof.
  split.
  - induction n as [|n IH]; [reflexivity|].
    cbn [Nat.add dots_after]. by rewrite IH.
  - assert (dots_after n = EmptyString \/ dots_after n = "." \/
            dots_after n = ".." \/ dots_after n = "...") as H.
    { induction n as [|n IH]; [by left|]. cbn [dots_after].
      destruct IH as [->|[->|[->| ->]]]; vm_compute; tauto. }
    destruct H as [->|[->|[->| ->]]]; cbn; lia.
Qed.

Lemma substring_snoc i text :
  i < String.length text ->
  String.substring 0 i text +:+ char_at text i = String.substring 0 (S i) text.
Proof.
  revert i. induction text as [|c text IH]; intros i Hi; [cbn in Hi; lia|].
  destruct i as [|i].
  - unfold char_at. cbn. by destruct text.
  - cbn [String.length] in Hi. specialize (IH i ltac:(lia)).
    unfold char_at in *. cbn [String.get String.substring] in *.
    by rewrite str_app_cons, IH.
Qed.

Lemma substring_all text : String.substring 0 (String.length text) text = text.
Proof. induction text as [|c text IH]; [done|]. cbn. by rewrite IH. Qed.

(** After [n] renders the animated text shows the first [n] characters of
    the message, and from the length of the message on the whole message,
    for good; it never shows a character the message does not have, and it
    is complete exactly from then on. *)
Theorem typing_after_prefix text n :
  typing_after text n
  = Typing (String.substring 0 (Nat.min n (String.length text)) text)
           (Nat.min n (String.length text)) /\
  (typing_done text (typing_after text n) = true
   <-> String.length text <= n) /\
  (String.length text <= n -> displayText (typing_after text n) = text).
Proof.
  assert (typing_after text n
          = Typing (String.substring 0 (Nat.min n (String.length text)) text)
                   (Nat.min n (String.length text))) as H.
  { induction n as [|n IH].
    - cbn. by destruct text.
    - cbn [typing_after]. rewrite IH. unfold typing_tick.
      cbn [currentIndex displayText].
      destruct (Nat.ltb_spec (Nat.min n (String.length text))
                  (String.length text)) as [Hlt|Hge].
      + rewrite substring_snoc by done.
        replace (Nat.min (S n) (String.length text))
          with (S (Nat.min n (String.length text))) by lia.
        done.
      + replace (Nat.min (S n) (String.length text))
          with (Nat.min n (String.length text)) by lia.
        done. }
  split_and!; [done| |].
  - rewrite H. unfold typing_done. cbn [currentIndex].
    rewrite negb_true_iff, Nat.ltb_ge. lia.
  - intros Hn. rewrite H. cbn [displayText].
    replace (Nat.min n (String.length text)) with (String.length text) by lia.
    apply substring_all.
Qed.

Lemma escape_head s :
  String.prefix "'" (escape_quotes s) = false.
Proof.
  destruct s as [|c s]; [done|]. cbn [escape_quotes].
  destruct (Ascii.eqb_spec c apostrophe) as [->|Hc]; [done|].
  rewrite prefix_cons. destruct (ascii_dec "'" c) as [<-|]; [done|done].
Qed.

(** In the quoted dataset every apostrophe follows a backslash: the
    text has no two apostrophes in a row, so the data cannot hold the
    three that end the Python text it is spliced into; a dataset without
    apostrophes is spliced as it is. *)
Theorem escape_quotes_no_pair s :
  includes (escape_quotes s) "''" = false /\
  (~ occurs apostrophe s -> escape_quotes s = s).
Proof.
  split.
  - induction s as [|c s IH]; [done|]. cbn [escape_quotes].
    destruct (Ascii.eqb_spec c apostrophe) as [->|Hc].
    + rewrite !includes_cons, IH.
      change (String.prefix "''" (String apostrophe (escape_quotes s)))
        with (String.prefix "'" (escape_quotes s)).
      by rewrite escape_head.
    + rewrite includes_cons, IH, prefix_cons.
      destruct (ascii_dec "'" c) as [<-|]; [done|done].
  - induction s as [|c s IH]; [done|]. cbn [occurs escape_quotes]. intros H.
    destruct (Ascii.eqb_spec c apostrophe) as [->|Hc]; [tauto|].
    rewrite IH by tauto. done.
Qed.

Lemma includes_prefix s p : String.prefix p s = true -> includes s p = true.
Proof. intros H. destruct s; cbn [includes]; by rewrite H. Qed.

Lemma includes_longer s p q :
  includes s (p +:+ q) = true -> includes s q = true.
Proof.
  induction s as [|c s IH].
  - rewrite includes_nil. intros [t Ht]%prefix_inv.
    destruct p; [|by rewrite !str_app_cons in Ht].
    rewrite str_app_nil in Ht. destruct q; [done|by rewrite str_app_cons in Ht].
  - rewrite !includes_cons. intros [H|H]%orb_true_iff.
    + apply prefix_inv in H as [t Ht].
      rewrite <- includes_cons, Ht, str_app_assoc.
      apply includes_app_r, includes_prefix, prefix_app_self.
    + rewrite IH by done. apply orb_true_r.
Qed.

(** With a dataset of at most 10 MB and an input that is not blank, the
    chat starts the complete analysis, a message and then the correlation
    matrix with or without the first charts before it, exactly when the
    input in lower case contains [all] or [everything], whatever the step
    of the analysis and the reply of the orchestrator; the third key word
    of that test, [explore all], changes nothing.  So a request for one
    chart that has a word like [rainfall] in it never reaches
    [handleNaturalLanguageChart]. *)
Theorem complete_analysis_iff csvData fileName s o input :
  trim input <> EmptyString -> nonempty csvData = true ->
  (blob_size csvData <= 10 * 1024 * 1024)%N ->
  ((exists msg rest,
      processChatInput csvData fileName s o input = Some (Say msg 500 :: rest) /\
      (rest = [GenerateCorrelationMatrix] \/
       rest = [CreateInitialVisualizations; Later 2000 GenerateCorrelationMatrix]))
   <-> includes (toLowerCase input) "all" = true \/
       includes (toLowerCase input) "everything" = true).
Proof.
  intros Hin Hcsv Hsize. unfold processChatInput.
  destruct (String.eqb_spec (trim input) EmptyString) as [|_]; [done|].
  rewrite Hcsv. cbn [negb].
  destruct (N.ltb_spec (10 * 1024 * 1024) (blob_size csvData)) as [|_]; [lia|].
  destruct (includes (toLowerCase input) "explore all") eqn:He.
  { apply (includes_longer _ "explore ") in He as ->. cbn [orb]. split; [by left|].
    intros _. destruct s; cbn [early]; eexists _, _; (split; [reflexivity|tauto]). }
  rewrite orb_false_r.
  destruct (includes (toLowerCase input) "all") eqn:Ha.
  { cbn [orb]. split; [by left|].
    intros _. destruct s; cbn [early]; eexists _, _; (split; [reflexivity|tauto]). }
  destruct (includes (toLowerCase input) "everything") eqn:Hv.
  { cbn [orb]. split; [by right|].
    intros _. destruct s; cbn [early]; eexists _, _; (split; [reflexivity|tauto]). }
  cbn [orb]. split; [|by intros [|]].
  intros (msg & rest & H & Hrest). exfalso.
  repeat case_match; simplify_eq; destruct Hrest; done.
Qed.

Lemma complete_analysis_iff_witness :
  let input := "Draw a chart of rainfall" in
  (trim input <> EmptyString /\ nonempty "a,b" = true /\
   (blob_size "a,b" <= 10 * 1024 * 1024)%N) /\
  ((exists msg rest,
      processChatInput "a,b" "data.csv" StepVisualization
        (Result "natural_language_chart" None) input
      = Some (Say msg 500 :: rest) /\
      (rest = [GenerateCorrelationMatrix] \/
       rest = [CreateInitialVisualizations; Later 2000 GenerateCorrelationMatrix]))
   <-> includes (toLowerCase input) "all" = true \/
       includes (toLowerCase input) "everything" = true).
Proof.
  intros input.
  assert (trim input <> EmptyString) as H1 by (vm_compute; discriminate).
  assert (nonempty "a,b" = true) as H2 by reflexivity.
  assert (blob_size "a,b" <= 10 * 1024 * 1024)%N as H3 by (vm_compute; discriminate).
  split; [by split_and!|].
  exact (complete_analysis_iff "a,b" "data.csv" StepVisualization
           (Result "natural_language_chart" None) input H1 H2 H3).
Defined.

End panel_chat.
